(** * Text-Speech converter CLI (tts_stt_converter.py): a shallow embedding

    The script is a thin shell around four libraries: [configparser],
    [logging], [argparse] and the two conversion providers ([gTTS] and
    [speech_recognition]).  Everything the script itself decides is
    control flow: which fallback is used, which [except] clause fires,
    what is written where.  The embedding therefore keeps

    - the process state the script touches (parsed configuration, the
      two loggers, the files, the two console streams, the calls made to
      the providers) in a record [world];
    - everything the script cannot decide (what the providers answer,
      whether the operating system lets a file be opened, which file a
      path leads to) in a record [env] of oracles;
    - Python's control flow (normal return, raised exception,
      [SystemExit]) in a small state-and-exception monad [M]. *)

From Stdlib Require Import ZArith String Ascii List Bool Lia.
From stdpp Require Import base option list strings pretty gmap.

Open Scope string_scope.
Open Scope Z_scope.
Open Scope list_scope.

(** ** Exceptions

    An exception value carries its class and the text [str(e)] that the
    script interpolates into its log messages.  Only the classes named by
    an [except] clause of the script are told apart; every other subclass
    of [Exception] is an [OtherException] with its class name.  A subclass
    of one of the four named classes is represented by that class, which
    is how an [except] clause treats it.  (Asynchronous interrupts, which
    are not [Exception]s, are outside the model.) *)

Inductive exn_class : Type :=
| FileNotFoundError
| PermissionError
| UnknownValueError          (* speech_recognition.UnknownValueError *)
| RequestError               (* speech_recognition.RequestError *)
| OtherException (name : string).

Record exn : Type := Exn { exn_type : exn_class; exn_str : string }.

(** The classes that appear after [except] in the script. *)
Inductive except_clause : Type :=
| ExceptFileNotFoundError
| ExceptPermissionError
| ExceptUnknownValueError
| ExceptRequestError
| ExceptException.

Definition isinstance (e : exn) (c : except_clause) : bool :=
  match c, exn_type e with
  | ExceptException, _ => true
  | ExceptFileNotFoundError, FileNotFoundError => true
  | ExceptPermissionError, PermissionError => true
  | ExceptUnknownValueError, UnknownValueError => true
  | ExceptRequestError, RequestError => true
  | _, _ => false
  end.

(** ** os.path (posixpath) *)

Module posixpath.

Definition sep : ascii := "/"%char.

Definition is_sep (c : ascii) : bool := Ascii.eqb c sep.

(** [p[:p.rfind('/') + 1]]: everything up to and including the last
    separator, the empty string when there is none. *)
Fixpoint head_of (p : string) : string :=
  match p with
  | EmptyString => EmptyString
  | String c rest =>
      match head_of rest with
      | EmptyString => if is_sep c then String c EmptyString else EmptyString
      | h => String c h
      end
  end.

(** [head != sep * len(head)] is the negation of this test. *)
Fixpoint all_sep (s : string) : bool :=
  match s with
  | EmptyString => true
  | String c rest => is_sep c && all_sep rest
  end.

(** [s.rstrip('/')] *)
Fixpoint rstrip_sep (s : string) : string :=
  match s with
  | EmptyString => EmptyString
  | String c rest =>
      match rstrip_sep rest with
      | EmptyString => if is_sep c then EmptyString else String c EmptyString
      | r => String c r
      end
  end.

(** [os.path.dirname]:
<<
    i = p.rfind(sep) + 1
    head = p[:i]
    if head and head != sep*len(head):
        head = head.rstrip(sep)
    return head
>> *)
Definition dirname (p : string) : string :=
  let head := head_of p in
  if all_sep head then head else rstrip_sep head.

(** A path "has a directory component" when a separator occurs in it. *)
Fixpoint has_sep (p : string) : bool :=
  match p with
  | EmptyString => false
  | String c rest => is_sep c || has_sep rest
  end.

(** [p.split('/')] *)
Fixpoint split (p : string) : list string :=
  match p with
  | EmptyString => [EmptyString]
  | String c rest =>
      if is_sep c then EmptyString :: split rest
      else match split rest with
           | comp :: comps => String c comp :: comps
           | [] => [String c EmptyString]
           end
  end.

(** ['/'.join(comps)] *)
Fixpoint join (comps : list string) : string :=
  match comps with
  | [] => EmptyString
  | [comp] => comp
  | comp :: rest => comp +:+ "/" +:+ join rest
  end.

(** The body of the loop of [normpath]:
<<
    if comp in ('', '.'): continue
    if (comp != '..' or (not initial_slashes and not new_comps) or
         (new_comps and new_comps[-1] == '..')):
        new_comps.append(comp)
    elif new_comps:
        new_comps.pop()
>> *)
Definition normpath_step (initial_slashes : nat) (new_comps : list string) (comp : string)
    : list string :=
  if String.eqb comp "" || String.eqb comp "." then new_comps
  else if negb (String.eqb comp "..")
          || (Nat.eqb initial_slashes 0 && bool_decide (new_comps = []))
          || bool_decide (last new_comps = Some "..")
       then new_comps ++ [comp]
       else removelast new_comps.

(** [os.path.normpath]: one or two leading slashes are kept as they
    are, three or more count as one. *)
Definition normpath (path : string) : string :=
  if String.eqb path "" then "."
  else
    let initial_slashes :=
      if String.prefix "/" path
      then if String.prefix "//" path && negb (String.prefix "///" path) then 2%nat else 1%nat
      else 0%nat in
    let comps := fold_left (normpath_step initial_slashes) (split path) [] in
    let path := String.concat "" (repeat "/" initial_slashes) +:+ join comps in
    if String.eqb path "" then "." else path.

End posixpath.

(** ** configparser

    The parsed content of a [ConfigParser]: the [DEFAULT] section and the
    named sections, each a flat map from option name to the raw value.
    The INI syntax itself is read by the library (see [parse_ini] in
    [env]).  [get] is the library's, CPython 3.11, with the interpolation
    a [ConfigParser()] does by default ([BasicInterpolation]): a value is
    handed out with [%%] read as a percent sign and [%(name)s] replaced by
    the value of [name], and any other use of [%] raises. *)

Module configparser.

Record ConfigParser : Type := {
  defaults : gmap string string;
  sections : gmap string (gmap string string)
}.

(** [configparser.ConfigParser()] *)
Definition empty : ConfigParser :=
  {| defaults := ∅; sections := ∅ |}.

Definition MAX_INTERPOLATION_DEPTH : nat := 10.

(** ['%' in v] *)
Fixpoint has_percent (v : string) : bool :=
  match v with
  | EmptyString => false
  | String c rest => Ascii.eqb c "%"%char || has_percent rest
  end.

(** What the group of [_KEYCRE], the pattern [%\(([^)]+)\)s], holds
    when the pattern is matched where ["%("] has just been read: the name
    runs up to the first [")"], which an ["s"] must follow. *)
Fixpoint key_name (after_open : string) : Datatypes.option string :=
  match after_open with
  | EmptyString => None
  | String c rest =>
      if Ascii.eqb c ")"%char then
        match rest with
        | String c' _ => if Ascii.eqb c' "s"%char then Some EmptyString else None
        | EmptyString => None
        end
      else String c <$> key_name rest
  end.

(** [_KEYCRE.match(rest)]: the name is not empty. *)
Definition KEYCRE_match (after_open : string) : Datatypes.option string :=
  match key_name after_open with
  | Some EmptyString => None
  | r => r
  end.

Section Get.

(** [str.lower], which [optionxform] applies to the name of a
    reference, and [repr] of a [str], which the error messages quote
    their arguments with. *)
Context (lower repr : string → string).

Definition InterpolationSyntaxError (msg : string) : exn :=
  Exn (OtherException "InterpolationSyntaxError") msg.

Definition InterpolationMissingOptionError (option section rawval reference : string) : exn :=
  Exn (OtherException "InterpolationMissingOptionError")
    ("Bad value substitution: option " +:+ repr option +:+ " in section " +:+ repr section
     +:+ " contains an interpolation key " +:+ repr reference
     +:+ " which is not a valid option name. Raw value: " +:+ repr rawval).

Definition InterpolationDepthError (option section rawval : string) : exn :=
  Exn (OtherException "InterpolationDepthError")
    ("Recursion limit exceeded in value substitution: option " +:+ repr option
     +:+ " in section " +:+ repr section
     +:+ " contains an interpolation key which cannot be substituted in "
     +:+ pretty (Z.of_nat MAX_INTERPOLATION_DEPTH) +:+ " steps. Raw value: " +:+ repr rawval).

Section Interpolate.

Context (option section rawval : string) (map : string → Datatypes.option string).

(** The [while rest:] loop of [_interpolate_some] at one depth, reading
    [rest] from left to right:
<<
    c = rest[1:2]
    if c == "%": accum.append("%"); rest = rest[2:]
    elif c == "(":
        m = self._KEYCRE.match(rest)
        if m is None: raise InterpolationSyntaxError(...)
        var = parser.optionxform(m.group(1)); rest = rest[m.end():]
        try: v = map[var]
        except KeyError: raise InterpolationMissingOptionError(...)
        if "%" in v: self._interpolate_some(..., v, ..., depth + 1)
        else: accum.append(v)
    else: raise InterpolationSyntaxError(...)
>>
    [skip] counts the characters of an escaped percent sign or of a
    reference that have been dealt with already, and [nested] is the
    call one level down. *)
Fixpoint interpolate_loop (nested : string → exn + string) (skip : nat) (rest : string)
    : exn + string :=
  match rest with
  | EmptyString => inr EmptyString
  | String c tail =>
      match skip with
      | S n => interpolate_loop nested n tail
      | O =>
          if negb (Ascii.eqb c "%"%char) then
            match interpolate_loop nested 0 tail with
            | inl e => inl e
            | inr r => inr (String c r)
            end
          else
            match tail with
            | String "%"%char _ =>
                match interpolate_loop nested 1 tail with
                | inl e => inl e
                | inr r => inr (String "%"%char r)
                end
            | String "("%char after_open =>
                match KEYCRE_match after_open with
                | None =>
                    inl (InterpolationSyntaxError
                           ("bad interpolation variable reference " +:+ repr rest))
                | Some name =>
                    let var := lower name in
                    match map var with
                    | None => inl (InterpolationMissingOptionError option section rawval var)
                    | Some v =>
                        match (if has_percent v then nested v else inr v) with
                        | inl e => inl e
                        | inr r =>
                            match interpolate_loop nested (String.length name + 3) tail with
                            | inl e => inl e
                            | inr r' => inr (r +:+ r')
                            end
                        end
                    end
                end
            | _ =>
                inl (InterpolationSyntaxError
                       ("'%' must be followed by '%' or '(', found: " +:+ repr rest))
            end
      end
  end.

(** [_interpolate_some] with [levels] levels to go before
    [depth > MAX_INTERPOLATION_DEPTH]. *)
Fixpoint interpolate_some (levels : nat) (rest : string) : exn + string :=
  match levels with
  | O => inl (InterpolationDepthError option section rawval)
  | S n => interpolate_loop (interpolate_some n) 0 rest
  end.

End Interpolate.

(** [BasicInterpolation.before_get]; the raw value quoted in the error
    messages is the one of the option asked for. *)
Definition before_get (section option value : string)
    (map : string → Datatypes.option string) : exn + string :=
  interpolate_some option section value map MAX_INTERPOLATION_DEPTH value.

(** [config.get(section, option, fallback=fallback)]: a missing section
    (other than [DEFAULT]) or a missing option yields the fallback as it
    is; an option missing from its section is looked up in [DEFAULT]; a
    value that is found is interpolated, references being looked up the
    same way.  ([optionxform] leaves the lower-case option names of the
    script as they are.) *)
Definition get (c : ConfigParser) (section option fallback : string) : exn + string :=
  let sectiondict :=
    match sections c !! section with
    | Some d => Some d
    | None => if String.eqb section "DEFAULT" then Some ∅ else None
    end in
  match sectiondict with
  | None => inr fallback
  | Some d =>
      let map := λ k, match d !! k with
                      | Some v => Some v
                      | None => defaults c !! k
                      end in
      match map option with
      | None => inr fallback
      | Some value => before_get section option value map
      end
  end.

End Get.

(** The configuration has nothing to say about an option: its section
    is missing, or neither the section nor [DEFAULT] sets it. *)
Definition lacks (c : ConfigParser) (section option : string) : Prop :=
  (sections c !! section = None ∧ section ≠ "DEFAULT") ∨
  ((∀ d, sections c !! section = Some d → d !! option = None) ∧
   defaults c !! option = None).

End configparser.

(** ** logging: levels, the module namespace, handlers and loggers *)

Module logging.

Definition CRITICAL : Z := 50.
Definition FATAL : Z := CRITICAL.
Definition ERROR : Z := 40.
Definition WARNING : Z := 30.
Definition WARN : Z := WARNING.
Definition INFO : Z := 20.
Definition DEBUG : Z := 10.
Definition NOTSET : Z := 0.

(** What [getattr(logging, name)] can be, as far as [setLevel] cares:
    an [int] (a [bool] is an [int] in Python, [True] being [1]), a
    [str], or any other object (function, class, handler). *)
Inductive attr : Type :=
| AInt (n : Z)
| AStr (s : string)
| AObj.

(** What [getattr(logging, name)] finds, CPython 3.11: the public names
    of the module (its [__all__]), then the other names the module binds
    and the attributes every module object has.  Four names whose value
    depends on the installation or on the interpreter's options
    ([__file__], [__cached__], [_srcfile], [__doc__]) and the sub-modules,
    bound only once something imports them, are left out: [setLevel]
    raises on each of them, which the table does not show. *)
Definition module_attrs : list (string * attr) :=
  [ ("BASIC_FORMAT", AStr "%(levelname)s:%(name)s:%(message)s");
    ("BufferingFormatter", AObj); ("CRITICAL", AInt CRITICAL);
    ("DEBUG", AInt DEBUG); ("ERROR", AInt ERROR); ("FATAL", AInt FATAL);
    ("FileHandler", AObj); ("Filter", AObj); ("Formatter", AObj);
    ("Handler", AObj); ("INFO", AInt INFO); ("LogRecord", AObj);
    ("Logger", AObj); ("LoggerAdapter", AObj); ("NOTSET", AInt NOTSET);
    ("NullHandler", AObj); ("StreamHandler", AObj); ("WARN", AInt WARN);
    ("WARNING", AInt WARNING); ("addLevelName", AObj); ("basicConfig", AObj);
    ("captureWarnings", AObj); ("critical", AObj); ("debug", AObj);
    ("disable", AObj); ("error", AObj); ("exception", AObj); ("fatal", AObj);
    ("getLevelName", AObj); ("getLogger", AObj); ("getLoggerClass", AObj);
    ("info", AObj); ("log", AObj); ("makeLogRecord", AObj);
    ("setLoggerClass", AObj); ("shutdown", AObj); ("warn", AObj);
    ("warning", AObj); ("getLogRecordFactory", AObj);
    ("setLogRecordFactory", AObj); ("lastResort", AObj);
    ("raiseExceptions", AInt 1); ("getLevelNamesMapping", AObj);
    ("Filterer", AObj); ("GenericAlias", AObj); ("Manager", AObj);
    ("PercentStyle", AObj); ("PlaceHolder", AObj); ("RootLogger", AObj);
    ("StrFormatStyle", AObj); ("StringTemplateStyle", AObj); ("Template", AObj);
    ("_STYLES", AObj); ("_StderrHandler", AObj); ("__all__", AObj);
    ("__annotations__", AObj);
    ("__author__", AStr "Vinay Sajip <vinay_sajip@red-dove.com>");
    ("__builtins__", AObj); ("__class__", AObj);
    ("__date__", AStr "07 February 2010"); ("__delattr__", AObj);
    ("__dict__", AObj); ("__dir__", AObj); ("__eq__", AObj);
    ("__format__", AObj); ("__ge__", AObj); ("__getattribute__", AObj);
    ("__getstate__", AObj); ("__gt__", AObj); ("__hash__", AObj);
    ("__init__", AObj); ("__init_subclass__", AObj); ("__le__", AObj);
    ("__loader__", AObj); ("__lt__", AObj); ("__name__", AStr "logging");
    ("__ne__", AObj); ("__new__", AObj); ("__package__", AStr "logging");
    ("__path__", AObj); ("__reduce__", AObj); ("__reduce_ex__", AObj);
    ("__repr__", AObj); ("__setattr__", AObj); ("__sizeof__", AObj);
    ("__spec__", AObj); ("__status__", AStr "production"); ("__str__", AObj);
    ("__subclasshook__", AObj); ("__version__", AStr "0.5.1.2");
    ("_acquireLock", AObj); ("_addHandlerRef", AObj);
    ("_after_at_fork_child_reinit_locks", AObj);
    ("_at_fork_reinit_lock_weakset", AObj); ("_checkLevel", AObj);
    ("_defaultFormatter", AObj); ("_defaultLastResort", AObj);
    ("_handlerList", AObj); ("_handlers", AObj); ("_is_internal_frame", AObj);
    ("_levelToName", AObj); ("_lock", AObj); ("_logRecordFactory", AObj);
    ("_loggerClass", AObj); ("_nameToLevel", AObj);
    ("_register_at_fork_reinit_lock", AObj); ("_releaseLock", AObj);
    ("_removeHandlerRef", AObj); ("_showwarning", AObj); ("_startTime", AObj);
    ("_str_formatter", AObj); ("_warnings_showwarning", AObj); ("atexit", AObj);
    ("collections", AObj); ("currentframe", AObj); ("io", AObj);
    ("logMultiprocessing", AInt 1); ("logProcesses", AInt 1);
    ("logThreads", AInt 1); ("os", AObj); ("re", AObj); ("root", AObj);
    ("sys", AObj); ("threading", AObj); ("time", AObj); ("traceback", AObj);
    ("warnings", AObj); ("weakref", AObj) ].

Fixpoint assoc {A : Type} (k : string) (l : list (string * A)) : option A :=
  match l with
  | [] => None
  | (k', v) :: rest => if String.eqb k k' then Some v else assoc k rest
  end.

(** [getattr(logging, name, default)] *)
Definition getattr (name : string) (default : attr) : attr :=
  match assoc name module_attrs with
  | Some v => v
  | None => default
  end.

(** [logging._nameToLevel] *)
Definition nameToLevel : list (string * Z) :=
  [ ("CRITICAL", CRITICAL); ("FATAL", FATAL); ("ERROR", ERROR);
    ("WARN", WARNING); ("WARNING", WARNING); ("INFO", INFO);
    ("DEBUG", DEBUG); ("NOTSET", NOTSET) ].

(** [logging._checkLevel], which [Logger.setLevel] applies to its
    argument:
<<
    if isinstance(level, int): rv = level
    elif str(level) == level:
        if level not in _nameToLevel: raise ValueError(...)
        rv = _nameToLevel[level]
    else: raise TypeError(...)
>>
    (The text of the [TypeError] goes on with the [repr] of the object,
    which for a function or a class holds its address; that part is left
    out.) *)
Definition checkLevel (v : attr) : exn + Z :=
  match v with
  | AInt n => inr n
  | AStr s =>
      match assoc s nameToLevel with
      | Some n => inr n
      | None => inl (Exn (OtherException "ValueError") ("Unknown level: '" +:+ s +:+ "'"))
      end
  | AObj => inl (Exn (OtherException "TypeError") "Level not an integer or a valid string")
  end.

(** [logging.getLevelName] on the levels the script produces. *)
Definition getLevelName (levelno : Z) : string :=
  if levelno =? CRITICAL then "CRITICAL"
  else if levelno =? ERROR then "ERROR"
  else if levelno =? WARNING then "WARNING"
  else if levelno =? INFO then "INFO"
  else if levelno =? DEBUG then "DEBUG"
  else if levelno =? NOTSET then "NOTSET"
  else "Level " +:+ pretty levelno.

(** Where a handler writes. *)
Inductive stream : Type :=
| FileStream (file : string)      (* FileHandler(path): the file it opened, in append mode *)
| StderrStream.                   (* StreamHandler() *)

(** The three format strings that occur:
    ['%(asctime)s<sep>%(levelname)s<sep>%(message)s'] with the
    separator [" - "] (file) or [" : "] (console), [BASIC_FORMAT], which
    [basicConfig()] installs, and ['%(message)s'] of the last-resort
    handler. *)
Inductive Formatter : Type :=
| FormatTimed (separator : string)
| FormatBasic
| FormatMessage.

Record Handler : Type := {
  h_stream : stream;
  h_level : Z;
  h_formatter : Formatter
}.

Record Logger : Type := {
  name : string;
  level : Z;
  handlers : list Handler;
  propagate : bool
}.

Record LogRecord : Type := {
  rec_name : string;
  levelno : Z;
  message : string;
  rec_asctime : string
}.

Definition format (f : Formatter) (r : LogRecord) : string :=
  match f with
  | FormatTimed separator =>
      rec_asctime r +:+ separator +:+ getLevelName (levelno r) +:+ separator +:+ message r
  | FormatBasic =>
      getLevelName (levelno r) +:+ ":" +:+ rec_name r +:+ ":" +:+ message r
  | FormatMessage => message r
  end.

(** [logging.getLogger(name)] on a name not yet in use. *)
Definition getLogger (n : string) : Logger :=
  {| name := n; level := NOTSET; handlers := []; propagate := true |}.

(** The root logger.  The script never configures it: its level stays
    at the initial WARNING, and its only handler, if it has one, is the
    console handler that [basicConfig()] installs. *)
Definition root_level : Z := WARNING.

Definition basic_handler : Handler :=
  {| h_stream := StderrStream; h_level := NOTSET; h_formatter := FormatBasic |}.

Definition setLevel (lg : Logger) (n : Z) : Logger :=
  {| name := name lg; level := n; handlers := handlers lg; propagate := propagate lg |}.

Definition addHandler (lg : Logger) (h : Handler) : Logger :=
  {| name := name lg; level := level lg; handlers := handlers lg ++ [h];
     propagate := propagate lg |}.

(** [logging.lastResort] *)
Definition lastResort : Handler :=
  {| h_stream := StderrStream; h_level := WARNING; h_formatter := FormatMessage |}.

End logging.

(** ** The process state and the environment *)

(** What reaches a console stream.  Text the script or a log handler
    prints is kept verbatim; the usage, help and traceback texts that
    [argparse] and the interpreter produce are kept as tags. *)
Inductive console_item : Type :=
| Line (s : string)
| ArgparseHelp
| ArgparseError
| Traceback (e : exn).

(** Calls that leave the script for a conversion library. *)
Inductive call : Type :=
| CallGTTS (text lang : string)               (* gTTS(text=text, lang=lang) *)
| CallSave (text lang path : string)          (* tts.save(path) *)
| CallAudioFile (path : string)               (* sr.AudioFile(path), recognizer.record *)
| CallRecognizeGoogle (audio language : string). (* recognizer.recognize_google *)

Record world : Type := {
  config : configparser.ConfigParser;     (* the module global [config] *)
  root_configured : bool;                 (* has logging.root got its console handler? *)
  logger : logging.Logger;                (* the module global [logger] *)
  submitted : list logging.LogRecord;     (* records handed to a logging call *)
  fs : gmap string string;                (* regular files: the file to its content *)
  stdout : list console_item;
  stderr : list console_item;
  calls : list call
}.

Definition set_config (x : configparser.ConfigParser) (w : world) : world :=
  {| config := x;
     root_configured := root_configured w;
     logger := logger w;
     submitted := submitted w;
     fs := fs w;
     stdout := stdout w;
     stderr := stderr w;
     calls := calls w |}.

Definition set_root_configured (x : bool) (w : world) : world :=
  {| config := config w;
     root_configured := x;
     logger := logger w;
     submitted := submitted w;
     fs := fs w;
     stdout := stdout w;
     stderr := stderr w;
     calls := calls w |}.

Definition set_logger (x : logging.Logger) (w : world) : world :=
  {| config := config w;
     root_configured := root_configured w;
     logger := x;
     submitted := submitted w;
     fs := fs w;
     stdout := stdout w;
     stderr := stderr w;
     calls := calls w |}.

Definition set_submitted (x : list logging.LogRecord) (w : world) : world :=
  {| config := config w;
     root_configured := root_configured w;
     logger := logger w;
     submitted := x;
     fs := fs w;
     stdout := stdout w;
     stderr := stderr w;
     calls := calls w |}.

Definition set_fs (x : gmap string string) (w : world) : world :=
  {| config := config w;
     root_configured := root_configured w;
     logger := logger w;
     submitted := submitted w;
     fs := x;
     stdout := stdout w;
     stderr := stderr w;
     calls := calls w |}.

Definition set_stdout (x : list console_item) (w : world) : world :=
  {| config := config w;
     root_configured := root_configured w;
     logger := logger w;
     submitted := submitted w;
     fs := fs w;
     stdout := x;
     stderr := stderr w;
     calls := calls w |}.

Definition set_stderr (x : list console_item) (w : world) : world :=
  {| config := config w;
     root_configured := root_configured w;
     logger := logger w;
     submitted := submitted w;
     fs := fs w;
     stdout := stdout w;
     stderr := x;
     calls := calls w |}.

Definition set_calls (x : list call) (w : world) : world :=
  {| config := config w;
     root_configured := root_configured w;
     logger := logger w;
     submitted := submitted w;
     fs := fs w;
     stdout := stdout w;
     stderr := stderr w;
     calls := x |}.

(** The interpreter at start-up: nothing configured, nothing printed,
    the files of the working directory as found. *)
Definition initial_world (files : gmap string string) : world :=
  {| config := configparser.empty;
     root_configured := false;
     logger := logging.getLogger "TextSpeechLogger";
     submitted := [];
     fs := files;
     stdout := [];
     stderr := [];
     calls := [] |}.

(** What the script does not decide.

    A file is named by one canonical path, the one [realpath] gives for
    every path that leads to it: [logs/converter.log] and
    [./logs/converter.log] are two paths and one file.  The keys of [fs]
    are files in this sense, and whatever opens a path works on the file
    the path leads to. *)
Record env : Type := {
  (* the clock, as [%(asctime)s] renders it *)
  asctime : string;
  (* the file a path leads to: os.path.realpath, or any other canonical
     name on which all the paths to one file agree *)
  realpath : string → string;
  (* str.lower() and repr() of a str, which follow the Unicode tables of
     the interpreter *)
  str_lower : string → string;
  repr : string → string;
  (* configparser reading the text of an INI file *)
  parse_ini : string → exn + configparser.ConfigParser;
  (* os.makedirs(name, exist_ok=True) on a non-empty name: the error, if any *)
  makedirs_error : string → option exn;
  (* opening a path for writing or appending: the error, if any *)
  open_error : string → option exn;
  (* the gTTS constructor on (text, lang): the error, if any *)
  gtts_init_error : string → string → option exn;
  (* the audio the synthesis service streams for (text, lang): the bytes
     received, and the error that cut the stream short, if any *)
  gtts_stream : string → string → string * option exn;
  (* speech_recognition reading the audio file at a path with some content *)
  audio_decode : string → string → exn + string;
  (* the recognition service on (audio, language) *)
  google_recognize : string → string → exn + string
}.

(** ** Control flow *)

Inductive outcome (A : Type) : Type :=
| Return (a : A)
| Raise (e : exn)
| SystemExit (code : Z).
Arguments Return {A} a.
Arguments Raise {A} e.
Arguments SystemExit {A} code.

Definition M (A : Type) : Type := world → outcome A * world.

Global Instance M_ret : MRet M := λ A a w, (Return a, w).

Global Instance M_bind : MBind M := λ A B f m w,
  match m w with
  | (Return a, w1) => f a w1
  | (Raise e, w1) => (Raise e, w1)
  | (SystemExit c, w1) => (SystemExit c, w1)
  end.

Definition raise {A : Type} (e : exn) : M A := λ w, (Raise e, w).

Definition sys_exit {A : Type} (code : Z) : M A := λ w, (SystemExit code, w).

Definition modify (f : world → world) : M unit := λ w, (Return tt, f w).

Definition reads {A : Type} (f : world → A) : M A := λ w, (Return (f w), w).

(** The first [except] clause whose class matches handles the exception;
    with none, it keeps propagating. *)
Fixpoint dispatch {A : Type} (clauses : list (except_clause * (exn → M A)))
    (e : exn) : M A :=
  match clauses with
  | [] => raise e
  | (c, handler) :: rest => if isinstance e c then handler e else dispatch rest e
  end.

(** [try: body  except C1 as e: h1 ...].  [SystemExit] is not an
    [Exception] and passes through. *)
Definition try_except {A : Type} (body : M A)
    (clauses : list (except_clause * (exn → M A))) : M A := λ w,
  match body w with
  | (Raise e, w1) => dispatch clauses e w1
  | r => r
  end.

(** The status the process ends with. *)
Definition exit_status {A : Type} (o : outcome A) : Z :=
  match o with
  | Return _ => 0
  | Raise _ => 1
  | SystemExit code => code
  end.

Definition nl : string := String "010"%char EmptyString.

(** [print(s)].  (The standard output takes every text: an encoding
    that cannot represent it is not part of the model.) *)
Definition print (s : string) : M unit :=
  modify (λ w, set_stdout (stdout w ++ [Line s]) w).

(** ** Logging calls *)

Inductive logger_ref : Type :=
| RootLogger
| TextSpeechLogger.

Definition logger_name (w : world) (l : logger_ref) : string :=
  match l with
  | RootLogger => "root"
  | TextSpeechLogger => logging.name (logger w)
  end.

(** [logging.root.handlers] *)
Definition root_handlers (w : world) : list logging.Handler :=
  if root_configured w then [logging.basic_handler] else [].

(** [Logger.getEffectiveLevel]: the first non-zero level on the way up to
    the root. *)
Definition getEffectiveLevel (w : world) (l : logger_ref) : Z :=
  match l with
  | RootLogger => logging.root_level
  | TextSpeechLogger =>
      if logging.level (logger w) =? logging.NOTSET
      then logging.root_level
      else logging.level (logger w)
  end.

(** The handlers [Logger.callHandlers] visits: the logger's own, then,
    while [propagate] is set, its parent's. *)
Definition handler_chain (w : world) (l : logger_ref) : list logging.Handler :=
  match l with
  | RootLogger => root_handlers w
  | TextSpeechLogger =>
      logging.handlers (logger w) ++
      (if logging.propagate (logger w) then root_handlers w else [])
  end.

(** [StreamHandler.emit]: the formatted record and a newline go to the
    stream; a file handler's stream appends to its file. *)
Definition emit (h : logging.Handler) (r : logging.LogRecord) (w : world) : world :=
  let line := logging.format (logging.h_formatter h) r in
  match logging.h_stream h with
  | logging.FileStream file =>
      set_fs (<[file := default "" (fs w !! file) +:+ line +:+ nl]> (fs w)) w
  | logging.StderrStream => set_stderr (stderr w ++ [Line line]) w
  end.

(** [if record.levelno >= hdlr.level: hdlr.handle(record)] *)
Definition handle (r : logging.LogRecord) (w : world) (h : logging.Handler) : world :=
  if logging.levelno r <? logging.h_level h then w else emit h r w.

Definition callHandlers (l : logger_ref) (r : logging.LogRecord) (w : world) : world :=
  match handler_chain w l with
  | [] => handle r w logging.lastResort
  | hs => fold_left (handle r) hs w
  end.

(** The object [gTTS(...)] returns: it remembers what to synthesise. *)
Record gTTS_object : Type := { tts_text : string; tts_lang : string }.

(** [handler.setFormatter(f)] and [handler.setLevel(n)] *)
Definition setFormatter (h : logging.Handler) (f : logging.Formatter) : logging.Handler :=
  {| logging.h_stream := logging.h_stream h; logging.h_level := logging.h_level h;
     logging.h_formatter := f |}.

Definition handler_setLevel (h : logging.Handler) (n : Z) : logging.Handler :=
  {| logging.h_stream := logging.h_stream h; logging.h_level := n;
     logging.h_formatter := logging.h_formatter h |}.

Section Script.

Context (E : env).

(** [Logger.log(level, msg)], the body of [Logger.error] and
    [Logger.info]: the record is dropped unless the effective level
    admits it. *)
Definition Logger_log (l : logger_ref) (lvl : Z) (msg : string) : M unit := λ w,
  let r := {| logging.rec_name := logger_name w l;
              logging.levelno := lvl;
              logging.message := msg;
              logging.rec_asctime := asctime E |} in
  let w1 := set_submitted (submitted w ++ [r]) w in
  if lvl <? getEffectiveLevel w l then (Return tt, w1)
  else (Return tt, callHandlers l r w1).

(** [logger.error(msg)] *)
Definition logger_error (msg : string) : M unit :=
  Logger_log TextSpeechLogger logging.ERROR msg.

(** [logging.basicConfig()] without arguments: unless the root logger
    already has a handler, it gets a console handler with
    [BASIC_FORMAT]. *)
Definition basicConfig : M unit :=
  modify (λ w,
    if root_configured w then w else set_root_configured true w).

(** The module-level [logging.info(msg)]:
<<
    if len(root.handlers) == 0: basicConfig()
    root.info(msg)
>> *)
Definition logging_info (msg : string) : M unit :=
  basicConfig ;;
  Logger_log RootLogger logging.INFO msg.

(** ** Files and directories *)

(** [os.makedirs(name, exist_ok=True)].  On the empty name the
    underlying [mkdir('')] fails with [ENOENT] and, the name not being a
    directory, [exist_ok] does not absorb the error.  On any other name
    the outcome is the operating system's.  (Directories are not part of
    [fs]; opening a file under a missing one fails through
    [open_error].) *)
Definition os_makedirs (name : string) : M unit :=
  if String.eqb name ""
  then raise (Exn FileNotFoundError "[Errno 2] No such file or directory: ''")
  else match makedirs_error E name with
       | Some e => raise e
       | None => mret tt
       end.

(** [with open(path, 'w', encoding='utf-8') as f: f.write(text)].
    (The one failure is that of [open]; a write that fails once the file
    is open is not part of the model.) *)
Definition write_text (path text : string) : M unit :=
  match open_error E path with
  | Some e => raise e
  | None => modify (λ w, set_fs (<[realpath E path := text]> (fs w)) w)
  end.

(** [config = configparser.ConfigParser(); config.read(filename)]: a file
    that does not exist is skipped without complaint. *)
Definition config_read (filename : string) : M unit := λ w,
  match fs w !! realpath E filename with
  | None => (Return tt, set_config configparser.empty w)
  | Some text =>
      match parse_ini E text with
      | inl e => (Raise e, set_config configparser.empty w)
      | inr c => (Return tt, set_config c w)
      end
  end.

(** [config.get(section, option, fallback=fallback)] on the global: the
    value, or the exception the interpolation of the value raises. *)
Definition config_get (section option fallback : string) : M string := λ w,
  match configparser.get (str_lower E) (repr E) (config w) section option fallback with
  | inl e => (Raise e, w)
  | inr value => (Return value, w)
  end.

(** ** The conversion libraries *)

(** [gTTS(text=text, lang=lang)] *)
Definition gTTS (text lang : string) : M gTTS_object :=
  modify (λ w, set_calls (calls w ++ [CallGTTS text lang]) w) ;;
  match gtts_init_error E text lang with
  | Some e => raise e
  | None => mret {| tts_text := text; tts_lang := lang |}
  end.

(** [tts.save(path)]: the library opens the file for writing and then
    copies what the service streams into it. *)
Definition gTTS_save (tts : gTTS_object) (path : string) : M unit :=
  modify (λ w, set_calls (calls w ++ [CallSave (tts_text tts) (tts_lang tts) path]) w) ;;
  match open_error E path with
  | Some e => raise e
  | None =>
      let received := gtts_stream E (tts_text tts) (tts_lang tts) in
      modify (λ w, set_fs (<[realpath E path := received.1]> (fs w)) w) ;;
      match received.2 with
      | Some e => raise e
      | None => mret tt
      end
  end.

(** [with sr.AudioFile(audio_path) as file: audio = recognizer.record(file)].
    (A path that leads to a regular file can be read, and any other
    path leads to nothing: directories and files the process may not
    read are not part of the model.) *)
Definition record_audio (audio_path : string) : M string :=
  modify (λ w, set_calls (calls w ++ [CallAudioFile audio_path]) w) ;;
  found ← reads (λ w, fs w !! realpath E audio_path);
  match found with
  | None =>
      raise (Exn FileNotFoundError
               ("[Errno 2] No such file or directory: '" +:+ audio_path +:+ "'"))
  | Some content =>
      match audio_decode E audio_path content with
      | inl e => raise e
      | inr audio => mret audio
      end
  end.

(** [recognizer.recognize_google(audio, language=language)] *)
Definition recognize_google (audio language : string) : M string :=
  modify (λ w, set_calls (calls w ++ [CallRecognizeGoogle audio language]) w) ;;
  match google_recognize E audio language with
  | inl e => raise e
  | inr text => mret text
  end.

(** ** Module initialisation (lines 27-49 of the script) *)

(** [logging.FileHandler(filename)]: opens the file in append mode,
    which creates it when it is not there, and keeps it open. *)
Definition FileHandler (filename : string) : M logging.Handler :=
  match open_error E filename with
  | Some e => raise e
  | None =>
      let file := realpath E filename in
      modify (λ w, set_fs (<[file := default "" (fs w !! file)]> (fs w)) w) ;;
      mret {| logging.h_stream := logging.FileStream file;
              logging.h_level := logging.NOTSET;
              logging.h_formatter := logging.FormatMessage |}
  end.

(** [logging.StreamHandler()] *)
Definition StreamHandler : logging.Handler :=
  {| logging.h_stream := logging.StderrStream;
     logging.h_level := logging.NOTSET;
     logging.h_formatter := logging.FormatMessage |}.

(** [logger.setLevel(value)] *)
Definition logger_setLevel (value : logging.attr) : M unit :=
  match logging.checkLevel value with
  | inl e => raise e
  | inr n => modify (λ w, set_logger (logging.setLevel (logger w) n) w)
  end.

(** [logger.addHandler(h)] *)
Definition logger_addHandler (h : logging.Handler) : M unit :=
  modify (λ w, set_logger (logging.addHandler (logger w) h) w).

Definition module_init : M unit :=
  config_read "config.ini" ;;
  log_file ← config_get "Logging" "log_file" "logs/converter.log";
  log_level ← config_get "Logging" "log_level" "INFO";
  os_makedirs (posixpath.dirname log_file) ;;
  modify (set_logger (logging.getLogger "TextSpeechLogger")) ;;
  logger_setLevel (logging.getattr log_level (logging.AInt logging.INFO)) ;;
  let formatter := logging.FormatTimed " - " in
  file_handler ← FileHandler log_file;
  let file_handler := setFormatter file_handler formatter in
  logger_addHandler file_handler ;;
  let console_handler := StreamHandler in
  let console_handler := handler_setLevel console_handler logging.INFO in
  let console_handler := setFormatter console_handler (logging.FormatTimed " : ") in
  logger_addHandler console_handler.

(** ** The two conversions *)

Definition convert_text_to_speech (text output_path : string) : M unit :=
  try_except
    (tts ← gTTS text "en";
     gTTS_save tts output_path ;;
     logging_info ("Speech saved to: " +:+ output_path) ;;
     print ("Speech saved to: " +:+ output_path))
    [ (ExceptPermissionError, λ pe,
        logger_error ("Permission denied while saving file: " +:+ exn_str pe));
      (ExceptException, λ err,
        logger_error ("Unexpected error occured in TTS: " +:+ exn_str err)) ].

(** The body of the [try] of [convert_speech_to_text]. *)
Definition stt_body (audio_path output_path language : string) : M unit :=
  audio ← record_audio audio_path;
  text ← recognize_google audio language;
  write_text output_path text.

Definition convert_speech_to_text (audio_path output_path language : string) : M unit :=
  try_except
    (stt_body audio_path output_path language)
    [ (ExceptFileNotFoundError, λ err,
        logger_error ("Audio file not found: " +:+ exn_str err));
      (ExceptUnknownValueError, λ _,
        logger_error "Speech was unintelligible.");
      (ExceptRequestError, λ re,
        logger_error ("Sppech recognition API error: " +:+ exn_str re));
      (ExceptException, λ err,
        logger_error ("Unexpected error in STT: " +:+ exn_str err)) ].

End Script.

(** ** argparse

    The command-line grammar that [parse_cli_args] declares, read the way
    [ArgumentParser.parse_args] of CPython 3.11 reads it: a top-level
    parser whose only positional is the sub-command, and one sub-parser
    per sub-command with long options only.  Abbreviated long options
    ([--te]), attached values ([--text=hello]), the [--] marker and the
    negative-number rule are followed.  Strings are the UTF-8 bytes of
    the arguments.  One input is not followed: a value that is exactly
    [--] attached to an option ([--text=--]) is stored as it is, where
    the library takes it out of the option's arguments and stores an
    empty list. *)

Module argparse.

(** The attributes of the [Namespace] the script reads; [None] is an
    attribute that is unset. *)
Record Namespace : Type := {
  command : option string;
  text : option string;
  audio : option string;
  lang : option string
}.

Inductive action : Type :=
| HelpAction                    (* -h/--help: print help, exit 0 *)
| StoreAction (dest : string).  (* one argument, stored under dest *)

Record parser : Type := {
  option_string_actions : list (string * action);
  required : list string
}.

Definition top_parser : parser :=
  {| option_string_actions := [("-h", HelpAction); ("--help", HelpAction)];
     required := [] |}.

(** [subparsers.add_parser('tts')] with [--text] (required) *)
Definition tts_parser : parser :=
  {| option_string_actions :=
       [("-h", HelpAction); ("--help", HelpAction); ("--text", StoreAction "text")];
     required := ["text"] |}.

(** [subparsers.add_parser('stt')] with [--audio] (required) and [--lang] *)
Definition stt_parser : parser :=
  {| option_string_actions :=
       [("-h", HelpAction); ("--help", HelpAction);
        ("--audio", StoreAction "audio"); ("--lang", StoreAction "lang")];
     required := ["audio"] |}.

Definition is_dash (c : ascii) : bool := Ascii.eqb c "-"%char.

(** The characters [\d] matches in a [str] pattern, the decimal digits
    of Unicode 14.0 (category Nd), in UTF-8: the leading bytes of a block
    of digits and the range of its last byte. *)
Definition decimal_digits : list (list N * N * N) :=
  [([], 48, 57); ([217], 160, 169); ([219], 176, 185); ([223], 128, 137);
    ([224; 165], 166, 175); ([224; 167], 166, 175); ([224; 169], 166, 175);
    ([224; 171], 166, 175); ([224; 173], 166, 175); ([224; 175], 166, 175);
    ([224; 177], 166, 175); ([224; 179], 166, 175); ([224; 181], 166, 175);
    ([224; 183], 166, 175); ([224; 185], 144, 153); ([224; 187], 144, 153);
    ([224; 188], 160, 169); ([225; 129], 128, 137); ([225; 130], 144, 153);
    ([225; 159], 160, 169); ([225; 160], 144, 153); ([225; 165], 134, 143);
    ([225; 167], 144, 153); ([225; 170], 128, 137); ([225; 170], 144, 153);
    ([225; 173], 144, 153); ([225; 174], 176, 185); ([225; 177], 128, 137);
    ([225; 177], 144, 153); ([234; 152], 160, 169); ([234; 163], 144, 153);
    ([234; 164], 128, 137); ([234; 167], 144, 153); ([234; 167], 176, 185);
    ([234; 169], 144, 153); ([234; 175], 176, 185); ([239; 188], 144, 153);
    ([240; 144; 146], 160, 169); ([240; 144; 180], 176, 185);
    ([240; 145; 129], 166, 175); ([240; 145; 131], 176, 185);
    ([240; 145; 132], 182, 191); ([240; 145; 135], 144, 153);
    ([240; 145; 139], 176, 185); ([240; 145; 145], 144, 153);
    ([240; 145; 147], 144, 153); ([240; 145; 153], 144, 153);
    ([240; 145; 155], 128, 137); ([240; 145; 156], 176, 185);
    ([240; 145; 163], 160, 169); ([240; 145; 165], 144, 153);
    ([240; 145; 177], 144, 153); ([240; 145; 181], 144, 153);
    ([240; 145; 182], 160, 169); ([240; 150; 169], 160, 169);
    ([240; 150; 171], 128, 137); ([240; 150; 173], 144, 153);
    ([240; 157; 159], 142, 191); ([240; 158; 133], 128, 137);
    ([240; 158; 139], 176, 185); ([240; 158; 165], 144, 153);
    ([240; 159; 175], 176, 185) ]%N.

(** What is left of [s] after the bytes [lead], if it begins with them. *)
Fixpoint strip_bytes (lead : list N) (s : string) : option string :=
  match lead with
  | [] => Some s
  | b :: lead' =>
      match s with
      | String c rest => if N.eqb (N_of_ascii c) b then strip_bytes lead' rest else None
      | EmptyString => None
      end
  end.

Definition digit_row (s : string) (row : list N * N * N) : option string :=
  match strip_bytes row.1.1 s with
  | Some (String c rest) =>
      let n := N_of_ascii c in
      if (row.1.2 <=? n)%N && (n <=? row.2)%N then Some rest else None
  | _ => None
  end.

Fixpoint first_digit (rows : list (list N * N * N)) (s : string) : option string :=
  match rows with
  | [] => None
  | row :: rows' =>
      match digit_row s row with
      | Some rest => Some rest
      | None => first_digit rows' s
      end
  end.

(** One digit at the head of [s]: what follows it. *)
Definition after_digit (s : string) : option string := first_digit decimal_digits s.

Fixpoint contains (c : ascii) (s : string) : bool :=
  match s with
  | EmptyString => false
  | String c' rest => Ascii.eqb c c' || contains c rest
  end.

(** [s.split('=', 1)] when ['=' in s] *)
Fixpoint split_eq (s : string) : option (string * string) :=
  match s with
  | EmptyString => None
  | String c rest =>
      if Ascii.eqb c "="%char then Some (EmptyString, rest)
      else match split_eq rest with
           | Some (a, b) => Some (String c a, b)
           | None => None
           end
  end.

(** One or more digits up to the end of the string (or to a final
    newline, which [$] lets through).  A digit is at least one byte, so
    [n] digits are looked for in a string of [n] bytes. *)
Fixpoint digits_to_end_from (n : nat) (s : string) : bool :=
  match n with
  | O => false
  | S n' =>
      match after_digit s with
      | None => false
      | Some rest =>
          String.eqb rest "" || String.eqb rest (String "010"%char EmptyString)
          || digits_to_end_from n' rest
      end
  end.

Definition digits_to_end (s : string) : bool := digits_to_end_from (String.length s) s.

(** Digits, a dot, then one or more digits to the end. *)
Fixpoint digits_dot_digits_from (n : nat) (s : string) : bool :=
  match n with
  | O => false
  | S n' =>
      match s with
      | String "."%char rest => digits_to_end rest
      | _ =>
          match after_digit s with
          | None => false
          | Some rest => digits_dot_digits_from n' rest
          end
      end
  end.

Definition digits_dot_digits (s : string) : bool :=
  digits_dot_digits_from (String.length s) s.

(** [_negative_number_matcher]: the pattern [^-\d+$|^-\d*\.\d+$] *)
Definition negative_number (s : string) : bool :=
  match s with
  | String c rest => is_dash c && (digits_to_end rest || digits_dot_digits rest)
  | EmptyString => false
  end.

Definition known (p : parser) (option_string : string) : bool :=
  existsb (λ oa, String.eqb option_string oa.1) (option_string_actions p).

(** How an argument string is read: as a positional ([A]), as the [--]
    marker, as an option string with the value attached to it, if any
    ([O (Some option) value]), as an option-like string this parser
    does not know ([O None None]), or as an abbreviation of several
    options. *)
Inductive token_class : Type :=
| A
| DashDash
| O (option_string : option string) (explicit_arg : option string)
| Ambiguous.

(** [_get_option_tuples] *)
Definition get_option_tuples (p : parser) (arg : string)
    : list (string * option string) :=
  match arg with
  | String _ (String c1 tail) =>
      if is_dash c1 then
        let '(option_prefix, explicit_arg) :=
          match split_eq arg with
          | Some (a, b) => (a, Some b)
          | None => (arg, None)
          end in
        omap (λ oa, if String.prefix option_prefix oa.1
                    then Some (oa.1, explicit_arg) else None)
             (option_string_actions p)
      else
        let short_option_prefix := substring 0 2 arg in
        omap (λ oa, if String.eqb oa.1 short_option_prefix then Some (oa.1, Some tail)
                    else if String.prefix arg oa.1 then Some (oa.1, None)
                    else None)
             (option_string_actions p)
  | _ => []
  end.

(** [_parse_optional] *)
Definition parse_optional (p : parser) (arg : string) : token_class :=
  match arg with
  | EmptyString => A
  | String c0 rest =>
      if negb (is_dash c0) then A
      else if known p arg then O (Some arg) None
      else if String.eqb rest "" then A
      else
        match split_eq arg with
        | Some (option_string, explicit_arg) =>
            if known p option_string then O (Some option_string) (Some explicit_arg)
            else
              match get_option_tuples p arg with
              | _ :: _ :: _ => Ambiguous
              | [(o, e)] => O (Some o) e
              | [] => if negative_number arg then A
                      else if contains " "%char arg then A
                      else O None None
              end
        | None =>
            match get_option_tuples p arg with
            | _ :: _ :: _ => Ambiguous
            | [(o, e)] => O (Some o) e
            | [] => if negative_number arg then A
                    else if contains " "%char arg then A
                    else O None None
            end
        end
  end.

(** The pattern of a whole command line: after the first [--] every
    string is a positional. *)
Fixpoint classify (p : parser) (args : list string) : list (string * token_class) :=
  match args with
  | [] => []
  | a :: rest =>
      if String.eqb a "--" then (a, DashDash) :: map (λ s, (s, A)) rest
      else (a, parse_optional p a) :: classify p rest
  end.

Definition is_ambiguous (t : string * token_class) : bool :=
  match t.2 with
  | Ambiguous => true
  | _ => false
  end.

Inductive result (T : Type) : Type :=
| Parsed (v : T)
| Exit (code : Z).
Arguments Parsed {T} v.
Arguments Exit {T} code.

(** The letters glued to a one-letter flag ([-hh]): each must again be a
    flag without argument.  (No parser of the script has a one-letter
    option that takes an argument.) *)
Fixpoint flag_tail (p : parser) (tail : string) : bool :=
  match tail with
  | EmptyString => true
  | String c rest =>
      match logging.assoc (String "-"%char (String c EmptyString)) (option_string_actions p) with
      | Some HelpAction => flag_tail p rest
      | _ => false
      end
  end.

(** The help action with what was attached to its option string: help
    is printed (exit 0) unless the attachment is an error (exit 2). *)
Definition help_exit (p : parser) (option_string : string) (explicit_arg : option string) : Z :=
  match explicit_arg with
  | None => 0
  | Some e =>
      if negb (String.prefix "--" option_string) && negb (String.eqb e "") && flag_tail p e
      then 0 else 2
  end.

(** The main loop of a sub-parser, which has no positionals: options
    take effect from left to right, everything else is left over. *)
Fixpoint consume (p : parser) (toks : list (string * token_class))
    (values : list (string * string)) (extras : list string)
    : result (list (string * string) * list string) :=
  match toks with
  | [] => Parsed (values, extras)
  | (a, O (Some o) e) :: rest =>
      match logging.assoc o (option_string_actions p) with
      | Some HelpAction => Exit (help_exit p o e)
      | Some (StoreAction dest) =>
          match e with
          | Some v => consume p rest ((dest, v) :: values) extras
          | None =>
              match rest with
              | (v, A) :: rest' => consume p rest' ((dest, v) :: values) extras
              | _ => Exit 2        (* expected one argument *)
              end
          end
      | None => Exit 2
      end
  | (a, _) :: rest => consume p rest values (extras ++ [a])
  end.

(** [parser.parse_known_args] of a sub-parser. *)
Definition parse_known_args (p : parser) (args : list string)
    : result (list (string * string) * list string) :=
  let toks := classify p args in
  if existsb is_ambiguous toks then Exit 2
  else
    match consume p toks [] [] with
    | Exit c => Exit c
    | Parsed (values, extras) =>
        if forallb (λ dest, bool_decide (is_Some (logging.assoc dest values))) (required p)
        then Parsed (values, extras)
        else Exit 2              (* the following arguments are required *)
    end.

(** The sub-command and what follows it: the choice is checked, the
    sub-parser reads the rest, and anything left over is an error. *)
Definition subcommand (name : string) (args : list string) (extras : bool)
    : result Namespace :=
  if String.eqb name "tts" then
    match parse_known_args tts_parser args with
    | Exit c => Exit c
    | Parsed (values, sub_extras) =>
        if extras || negb (bool_decide (sub_extras = [])) then Exit 2
        else Parsed {| command := Some name; text := logging.assoc "text" values;
                       audio := None; lang := None |}
    end
  else if String.eqb name "stt" then
    match parse_known_args stt_parser args with
    | Exit c => Exit c
    | Parsed (values, sub_extras) =>
        if extras || negb (bool_decide (sub_extras = [])) then Exit 2
        else Parsed {| command := Some name; text := None;
                       audio := logging.assoc "audio" values;
                       lang := Some (default "en" (logging.assoc "lang" values)) |}
    end
  else Exit 2.                   (* invalid choice *)

(** The main loop of the top-level parser: options before the
    sub-command, then the sub-command takes everything that is left. *)
Fixpoint top_level (toks : list (string * token_class)) (extras : bool)
    : result Namespace :=
  match toks with
  | [] =>
      if extras then Exit 2      (* unrecognized arguments *)
      else Parsed {| command := None; text := None; audio := None; lang := None |}
  | (a, O (Some o) e) :: rest => Exit (help_exit top_parser o e)
  | (a, O None _) :: rest => top_level rest true
  | (a, A) :: rest => subcommand a (map fst rest) extras
  | (a, DashDash) :: rest => Exit 2
  | (a, Ambiguous) :: rest => Exit 2
  end.

(** [parser.parse_args(argv)] *)
Definition parse_args (argv : list string) : result Namespace :=
  top_level (classify top_parser argv) false.

End argparse.

(** ** The command line and [main] *)

(** The text [main] prints when no sub-command was chosen, byte for byte
    as in the script. *)
Definition invalid_command_message : string :=
  "‚ùå Invalid command. Use --help for options.".

Section Main.

Context (E : env).

(** [parse_cli_args()]: [argparse] prints its help on the standard
    output and leaves with status 0, or prints the usage and an error on
    the standard error and leaves with status 2. *)
Definition parse_cli_args (argv : list string) : M argparse.Namespace :=
  match argparse.parse_args argv with
  | argparse.Parsed args => mret args
  | argparse.Exit code =>
      modify (λ w, if code =? 0
                   then set_stdout (stdout w ++ [ArgparseHelp]) w
                   else set_stderr (stderr w ++ [ArgparseError]) w) ;;
      sys_exit code
  end.

(** Reading an attribute of the namespace; an attribute that is not set
    is an [AttributeError]. *)
Definition attribute (attr_name : string) (v : option string) : M string :=
  match v with
  | Some s => mret s
  | None =>
      raise (Exn (OtherException "AttributeError")
               ("'Namespace' object has no attribute '" +:+ attr_name +:+ "'"))
  end.

(** Lines 100-111: the dispatch on [args.command]. *)
Definition run_command (args : argparse.Namespace) : M unit :=
  if bool_decide (argparse.command args = Some "tts") then
    output_file ← config_get E "TTS" "output_file" "output/speech_output.mp3";
    os_makedirs E (posixpath.dirname output_file) ;;
    text ← attribute "text" (argparse.text args);
    convert_text_to_speech E text output_file
  else if bool_decide (argparse.command args = Some "stt") then
    output_file ← config_get E "STT" "output_file" "output/text_output.txt";
    os_makedirs E (posixpath.dirname output_file) ;;
    audio ← attribute "audio" (argparse.audio args);
    lang ← attribute "lang" (argparse.lang args);
    convert_speech_to_text E audio output_file lang
  else
    print invalid_command_message.

Definition main (argv : list string) : M unit :=
  args ← parse_cli_args argv;
  run_command args.

(** The script run as a program: the module-level statements, then
    [main()]. *)
Definition script (argv : list string) : M unit :=
  module_init E ;;
  main argv.

(** A whole run from a fresh interpreter: the exit status and the final
    state; an exception nobody caught ends up as a traceback on the
    standard error. *)
Definition run (files : gmap string string) (argv : list string) : Z * world :=
  let r := script argv (initial_world files) in
  (exit_status r.1,
   match r.1 with
   | Raise e => set_stderr (stderr r.2 ++ [Traceback e]) r.2
   | _ => r.2
   end).

End Main.

(** ** Concrete environments, used to run the script on examples *)

(** [str.lower] on ASCII text. *)
Definition ascii_lower_char (c : ascii) : ascii :=
  let n := nat_of_ascii c in
  if (65 <=? n)%nat && (n <=? 90)%nat then ascii_of_nat (n + 32) else c.

Fixpoint ascii_lower (s : string) : string :=
  match s with
  | EmptyString => EmptyString
  | String c rest => String (ascii_lower_char c) (ascii_lower rest)
  end.

(** [repr] of a [str] whose characters outside ASCII are printable: the
    text between single quotes, or between double quotes when it holds a
    single quote and no double one, with the quote, the backslash and the
    control characters escaped. *)
Definition hex_digit (n : nat) : ascii :=
  ascii_of_nat (if (n <? 10)%nat then 48 + n else 87 + n).

Definition repr_char (quote : ascii) (c : ascii) : string :=
  let n := nat_of_ascii c in
  if Ascii.eqb c quote || Ascii.eqb c "\"%char then String "\"%char (String c EmptyString)
  else if (n =? 9)%nat then "\t"
  else if (n =? 10)%nat then "\n"
  else if (n =? 13)%nat then "\r"
  else if (n <? 32)%nat || (n =? 127)%nat
       then String "\"%char (String "x"%char
              (String (hex_digit (n / 16)) (String (hex_digit (n mod 16)) EmptyString)))
  else String c EmptyString.

Fixpoint repr_body (quote : ascii) (s : string) : string :=
  match s with
  | EmptyString => EmptyString
  | String c rest => repr_char quote c +:+ repr_body quote rest
  end.

Definition ascii_repr (s : string) : string :=
  let quote :=
    if argparse.contains "'"%char s && negb (argparse.contains "034"%char s)
    then "034"%char else "'"%char in
  String quote (repr_body quote s +:+ String quote EmptyString).

(** The environments below are those of a working directory without
    links, every path being relative to it: the file a path leads to is
    found by normalising the path. *)

(** A cooperative environment: every file can be opened, both services
    answer, and [config.ini], when there is one, parses to [c]. *)
Definition env_ok (c : configparser.ConfigParser) : env :=
  {| asctime := "2024-05-01 12:00:00,000";
     realpath := posixpath.normpath;
     str_lower := ascii_lower;
     repr := ascii_repr;
     parse_ini := λ _, inr c;
     makedirs_error := λ _, None;
     open_error := λ _, None;
     gtts_init_error := λ _ _, None;
     gtts_stream := λ text lang, ("mp3:" +:+ lang +:+ ":" +:+ text, None);
     audio_decode := λ _ content, inr content;
     google_recognize := λ audio _, inr ("transcript of " +:+ audio) |}.

(** The same, with a recognition service that cannot make out the audio. *)
Definition env_unintelligible (c : configparser.ConfigParser) : env :=
  {| asctime := "2024-05-01 12:00:00,000";
     realpath := posixpath.normpath;
     str_lower := ascii_lower;
     repr := ascii_repr;
     parse_ini := λ _, inr c;
     makedirs_error := λ _, None;
     open_error := λ _, None;
     gtts_init_error := λ _ _, None;
     gtts_stream := λ text lang, ("mp3:" +:+ lang +:+ ":" +:+ text, None);
     audio_decode := λ _ content, inr content;
     google_recognize := λ _ _, inl (Exn UnknownValueError "") |}.

(** An environment in which no file may be opened for writing. *)
Definition env_permission_denied (c : configparser.ConfigParser) : env :=
  {| asctime := "2024-05-01 12:00:00,000";
     realpath := posixpath.normpath;
     str_lower := ascii_lower;
     repr := ascii_repr;
     parse_ini := λ _, inr c;
     makedirs_error := λ _, None;
     open_error := λ path,
       Some (Exn PermissionError ("[Errno 13] Permission denied: '" +:+ path +:+ "'"));
     gtts_init_error := λ _ _, None;
     gtts_stream := λ text lang, ("mp3:" +:+ lang +:+ ":" +:+ text, None);
     audio_decode := λ _ content, inr content;
     google_recognize := λ audio _, inr ("transcript of " +:+ audio) |}.

(** A configuration with a single option set. *)
Definition config_with (section option value : string) : configparser.ConfigParser :=
  {| configparser.defaults := ∅;
     configparser.sections := {[ section := {[ option := value ]} ]} |}.

(** The text of an INI file with one section and one option. *)
Definition ini_text (section option value : string) : string :=
  "[" +:+ section +:+ "]" +:+ nl +:+ option +:+ " = " +:+ value +:+ nl.

(** ** Observations used in the statements *)

(** Did the computation come back with a value? *)
Definition returned {A : Type} (o : outcome A) : bool :=
  match o with
  | Return _ => true
  | _ => false
  end.

(** The files that handlers write to. *)
Definition file_targets (hs : list logging.Handler) : list string :=
  omap (λ h, match logging.h_stream h with
             | logging.FileStream file => Some file
             | logging.StderrStream => None
             end) hs.

(** The files a record submitted to the script's logger can reach. *)
Definition log_files (w : world) : list string :=
  file_targets (handler_chain w TextSpeechLogger).

(** The first two statements of the [try] of [convert_speech_to_text]:
    everything that happens before a transcript is in hand. *)
Definition transcript (E : env) (audio_path language : string) : M string :=
  audio ← record_audio E audio_path;
  recognize_google E audio language.

(** The body of the [try] of [convert_text_to_speech] up to and including
    the save: the synthesis call and the file save. *)
Definition synthesis (E : env) (text output_path : string) : M unit :=
  tts ← gTTS E text "en";
  gTTS_save E tts output_path.

(** The record that [lg.error(msg)] submits. *)
Definition error_record (E : env) (lg : logging.Logger) (msg : string)
    : logging.LogRecord :=
  {| logging.rec_name := logging.name lg;
     logging.levelno := logging.ERROR;
     logging.message := msg;
     logging.rec_asctime := asctime E |}.

(** The logger as the module-level statements leave it when the level
    is [n] and the file handler has opened [file]. *)
Definition configured_logger (file : string) (n : Z) : logging.Logger :=
  {| logging.name := "TextSpeechLogger";
     logging.level := n;
     logging.handlers :=
       [ {| logging.h_stream := logging.FileStream file;
            logging.h_level := logging.NOTSET;
            logging.h_formatter := logging.FormatTimed " - " |};
         {| logging.h_stream := logging.StderrStream;
            logging.h_level := logging.INFO;
            logging.h_formatter := logging.FormatTimed " : " |} ];
     logging.propagate := true |}.

(** An operation keeps a relation between the state before and after. *)
Definition preserves {A : Type} (R : relation world) (m : M A) : Prop :=
  ∀ w, R w (m w).2.

(** The configuration is the same. *)
Definition same_config : relation world := λ w w', config w' = config w.

(** Nothing was asked of a conversion library and no file was touched. *)
Definition no_conversion : relation world :=
  λ w w', calls w' = calls w ∧ fs w' = fs w.

(** Everything but the files, the standard error and the list of
    submitted records is the same: what a logging call leaves alone. *)
Definition log_frame : relation world := λ w w',
  config w' = config w ∧ root_configured w' = root_configured w ∧
  logger w' = logger w ∧
  stdout w' = stdout w ∧ calls w' = calls w.

(** The message each failure category of [convert_speech_to_text] is
    logged with: a missing file, unintelligible speech, a failed request
    to the recognition service, and everything else. *)
Definition stt_log_message (e : exn) : string :=
  match exn_type e with
  | FileNotFoundError => "Audio file not found: " +:+ exn_str e
  | UnknownValueError => "Speech was unintelligible."
  | RequestError => "Sppech recognition API error: " +:+ exn_str e
  | PermissionError | OtherException _ => "Unexpected error in STT: " +:+ exn_str e
  end.

(** The message each failure category of [convert_text_to_speech] is
    logged with: a permission failure, and everything else. *)
Definition tts_log_message (e : exn) : string :=
  match exn_type e with
  | PermissionError => "Permission denied while saving file: " +:+ exn_str e
  | _ => "Unexpected error occured in TTS: " +:+ exn_str e
  end.


(** The language a call to the synthesis library asks for. *)
Definition synthesis_language (c : call) : option string :=
  match c with
  | CallGTTS _ lang | CallSave _ lang _ => Some lang
  | _ => None
  end.


(** The namespaces [main] is prepared for: no command and nothing else
    set; [tts] with its text; [stt] with its audio path and language. *)
Definition well_formed (args : argparse.Namespace) : Prop :=
  (argparse.command args = None ∧ argparse.text args = None ∧
   argparse.audio args = None ∧ argparse.lang args = None) ∨
  (argparse.command args = Some "tts" ∧ is_Some (argparse.text args) ∧
   argparse.audio args = None ∧ argparse.lang args = None) ∨
  (argparse.command args = Some "stt" ∧ argparse.text args = None ∧
   is_Some (argparse.audio args) ∧ is_Some (argparse.lang args)).

(** The [config.get] call with which [main] finds the output file of a
    sub-command (lines 100 and 106). *)
Definition output_file_of (E : env) (command : string) : M string :=
  if String.eqb command "tts"
  then config_get E "TTS" "output_file" "output/speech_output.mp3"
  else config_get E "STT" "output_file" "output/text_output.txt".

(** Every file that was there is still there (its content may differ). *)
Definition fs_grows : relation world :=
  λ w w', ∀ p, is_Some (fs w !! p) → is_Some (fs w' !! p).

(** An environment in which the audio can be read and recognised but
    the transcript cannot be written: the directory of the destination is
    gone. *)
Definition env_output_dir_missing (c : configparser.ConfigParser) : env :=
  {| asctime := "2024-05-01 12:00:00,000";
     realpath := posixpath.normpath;
     str_lower := ascii_lower;
     repr := ascii_repr;
     parse_ini := λ _, inr c;
     makedirs_error := λ _, None;
     open_error := λ path,
       Some (Exn FileNotFoundError
               ("[Errno 2] No such file or directory: '" +:+ path +:+ "'"));
     gtts_init_error := λ _ _, None;
     gtts_stream := λ text lang, ("mp3:" +:+ lang +:+ ":" +:+ text, None);
     audio_decode := λ _ content, inr content;
     google_recognize := λ audio _, inr ("transcript of " +:+ audio) |}.

(** An environment in which directories cannot be created. *)
Definition env_no_mkdir (c : configparser.ConfigParser) : env :=
  {| asctime := "2024-05-01 12:00:00,000";
     realpath := posixpath.normpath;
     str_lower := ascii_lower;
     repr := ascii_repr;
     parse_ini := λ _, inr c;
     makedirs_error := λ name,
       Some (Exn PermissionError ("[Errno 13] Permission denied: '" +:+ name +:+ "'"));
     open_error := λ _, None;
     gtts_init_error := λ _ _, None;
     gtts_stream := λ text lang, ("mp3:" +:+ lang +:+ ":" +:+ text, None);
     audio_decode := λ _ content, inr content;
     google_recognize := λ audio _, inr ("transcript of " +:+ audio) |}.

(** * Properties *)

(** ** The monad *)

Lemma bind_run {A B : Type} (m : M A) (f : A → M B) (w : world) :
  (m ≫= f) w =
  match m w with
  | (Return a, w1) => f a w1
  | (Raise e, w1) => (Raise e, w1)
  | (SystemExit c, w1) => (SystemExit c, w1)
  end.
Proof. reflexivity. Qed.

Lemma bind_modify {B : Type} (g : world → world) (f : unit → M B) (w : world) :
  (modify g ≫= f) w = f tt (g w).
Proof. reflexivity. Qed.

Lemma bind_reads {A B : Type} (g : world → A) (f : A → M B) (w : world) :
  (reads g ≫= f) w = f (g w) w.
Proof. reflexivity. Qed.

Lemma bind_raise {A B : Type} (e : exn) (f : A → M B) (w : world) :
  (raise e ≫= f) w = (Raise e, w).
Proof. reflexivity. Qed.

Lemma bind_ret {A B : Type} (a : A) (f : A → M B) (w : world) :
  (mret a ≫= f) w = f a w.
Proof. reflexivity. Qed.

Lemma bind_assoc {A B C : Type} (m : M A) (f : A → M B) (g : B → M C) (w : world) :
  ((m ≫= f) ≫= g) w = (m ≫= (λ a, f a ≫= g)) w.
Proof. rewrite !bind_run. destruct (m w) as [[a|e|c] w1]; reflexivity. Qed.

Lemma try_except_run {A : Type} (body : M A) clauses (w : world) :
  try_except body clauses w =
  match body w with
  | (Raise e, w1) => dispatch clauses e w1
  | r => r
  end.
Proof. reflexivity. Qed.

(** Running the first operation of a sequence whose outcome [H] gives. *)
Ltac bind_with H := rewrite bind_run, H; cbv beta iota.

(** [config.get] returns a value or raises, and changes nothing. *)
Lemma config_get_outcome (E : env) (section option fallback : string) (w : world) :
  (∃ value, config_get E section option fallback w = (Return value, w)) ∨
  (∃ e, config_get E section option fallback w = (Raise e, w)).
Proof.
  unfold config_get. destruct (configparser.get _ _ _ _ _ _); [right | left]; eauto.
Qed.

Lemma config_get_inv (E : env) (section option fallback value : string) (w w' : world) :
  config_get E section option fallback w = (Return value, w') →
  w' = w ∧
  configparser.get (str_lower E) (repr E) (config w) section option fallback = inr value.
Proof.
  unfold config_get. destruct (configparser.get _ _ _ _ _ _); intros [= <- <-]. done.
Qed.

Lemma config_get_same_config (E : env) (section option fallback : string) (w w' : world) :
  config w' = config w →
  config_get E section option fallback w'
  = ((config_get E section option fallback w).1, w').
Proof.
  intros H. unfold config_get. rewrite H.
  by destruct (configparser.get _ _ _ _ _ _).
Qed.

(** ** Operations that keep a relation *)

Section Preserves.

Context (R : relation world) `{!Reflexive R} `{!Transitive R}.

Lemma preserves_ret {A : Type} (a : A) : preserves R (mret a).
Proof. intros w. simpl. reflexivity. Qed.

Lemma preserves_raise {A : Type} (e : exn) : preserves R (raise (A:=A) e).
Proof. intros w. simpl. reflexivity. Qed.

Lemma preserves_sys_exit {A : Type} (c : Z) : preserves R (sys_exit (A:=A) c).
Proof. intros w. simpl. reflexivity. Qed.

Lemma preserves_reads {A : Type} (g : world → A) : preserves R (reads g).
Proof. intros w. simpl. reflexivity. Qed.

Lemma preserves_modify (g : world → world) :
  (∀ w, R w (g w)) → preserves R (modify g).
Proof. intros H w. apply H. Qed.

Lemma preserves_config_get (E : env) (section option fallback : string) :
  preserves R (config_get E section option fallback).
Proof.
  intros w. unfold config_get.
  destruct (configparser.get _ _ _ _ _ _); simpl; reflexivity.
Qed.

Lemma preserves_bind {A B : Type} (m : M A) (f : A → M B) :
  preserves R m → (∀ a, preserves R (f a)) → preserves R (m ≫= f).
Proof.
  intros Hm Hf w. rewrite bind_run.
  specialize (Hm w). destruct (m w) as [[a|e|c] w1]; simpl in *; try assumption.
  transitivity w1; [assumption | apply Hf].
Qed.

Lemma preserves_dispatch {A : Type} (clauses : list (except_clause * (exn → M A))) (e : exn) :
  Forall (λ ch, ∀ e', preserves R (ch.2 e')) clauses →
  preserves R (dispatch clauses e).
Proof.
  induction 1 as [|[c h] rest Hh _ IH]; simpl.
  - apply preserves_raise.
  - destruct (isinstance e c); [apply Hh | apply IH].
Qed.

Lemma preserves_try_except {A : Type} (body : M A) clauses :
  preserves R body →
  Forall (λ ch, ∀ e', preserves R (ch.2 e')) clauses →
  preserves R (try_except body clauses).
Proof.
  intros Hb Hc w. rewrite try_except_run.
  specialize (Hb w). destruct (body w) as [[a|e|c] w1]; simpl in *; try assumption.
  transitivity w1; [assumption | by apply preserves_dispatch].
Qed.

End Preserves.

Global Instance same_config_refl : Reflexive same_config.
Proof. intros w. reflexivity. Qed.

Global Instance same_config_trans : Transitive same_config.
Proof. intros w1 w2 w3 H12 H23. unfold same_config in *. congruence. Qed.

Global Instance no_conversion_refl : Reflexive no_conversion.
Proof. intros w. split; reflexivity. Qed.

Global Instance no_conversion_trans : Transitive no_conversion.
Proof. intros w1 w2 w3 [? ?] [? ?]. split; congruence. Qed.

(** ** Logging calls *)

Global Instance log_frame_refl : Reflexive log_frame.
Proof. intros w. repeat split. Qed.

Global Instance log_frame_trans : Transitive log_frame.
Proof.
  intros w1 w2 w3 (? & ? & ? & ? & ?) (? & ? & ? & ? & ?).
  repeat split; congruence.
Qed.

Lemma handle_frame (r : logging.LogRecord) (w : world) (h : logging.Handler) :
  log_frame w (handle r w h) ∧
  submitted (handle r w h) = submitted w ∧
  ∀ p, p ∉ file_targets [h] → fs (handle r w h) !! p = fs w !! p.
Proof.
  unfold handle, emit, file_targets.
  destruct (logging.levelno r <? logging.h_level h); [by repeat split|].
  destruct h as [[q|] lv f]; simpl; (split; [by repeat split|]); (split; [done|]).
  - intros p Hp. apply lookup_insert_ne. intros ->. apply Hp. left.
  - done.
Qed.

Lemma fold_handle_frame (r : logging.LogRecord) (hs : list logging.Handler) (w : world) :
  log_frame w (fold_left (handle r) hs w) ∧
  submitted (fold_left (handle r) hs w) = submitted w ∧
  ∀ p, p ∉ file_targets hs → fs (fold_left (handle r) hs w) !! p = fs w !! p.
Proof.
  revert w. induction hs as [|h hs IH]; intros w; simpl.
  - by repeat split.
  - destruct (handle_frame r w h) as (Hf & Hs & Hfs).
    destruct (IH (handle r w h)) as (Hf' & Hs' & Hfs').
    split; [by etransitivity|]. split; [congruence|].
    intros p Hp. rewrite Hfs'.
    + apply Hfs. intros Hin. apply Hp.
      unfold file_targets in *. simpl in *.
      destruct (logging.h_stream h); simpl in *; [|by apply not_elem_of_nil in Hin].
      apply list_elem_of_singleton in Hin as ->. left.
    + intros Hin. apply Hp. unfold file_targets in *. simpl.
      destruct (logging.h_stream h); simpl; [by right | done].
Qed.

Lemma callHandlers_frame (l : logger_ref) (r : logging.LogRecord) (w : world) :
  log_frame w (callHandlers l r w) ∧
  submitted (callHandlers l r w) = submitted w ∧
  ∀ p, p ∉ file_targets (handler_chain w l) → fs (callHandlers l r w) !! p = fs w !! p.
Proof.
  unfold callHandlers. destruct (handler_chain w l) as [|h hs] eqn:Hc.
  - destruct (handle_frame r w logging.lastResort) as (? & ? & Hfs).
    split; [done|]. split; [done|]. intros p _. apply Hfs. apply not_elem_of_nil.
  - apply fold_handle_frame.
Qed.

(** A logging call always comes back, hands exactly one record to the
    logger, and touches no file other than those of the handlers in
    reach. *)
Lemma Logger_log_spec (E : env) (l : logger_ref) (lvl : Z) (msg : string) (w : world) :
  ∃ w', Logger_log E l lvl msg w = (Return tt, w') ∧
        log_frame w w' ∧
        submitted w' = submitted w ++
          [ {| logging.rec_name := logger_name w l;
               logging.levelno := lvl;
               logging.message := msg;
               logging.rec_asctime := asctime E |} ] ∧
        ∀ p, p ∉ file_targets (handler_chain w l) → fs w' !! p = fs w !! p.
Proof.
  unfold Logger_log.
  set (r := {| logging.rec_name := _ |}).
  set (w1 := set_submitted _ w).
  destruct (lvl <? getEffectiveLevel w l).
  - exists w1. by repeat split.
  - exists (callHandlers l r w1). split; [done|].
    destruct (callHandlers_frame l r w1) as (Hf & Hs & Hfs).
    split; [|split].
    + transitivity w1; [by repeat split | done].
    + by rewrite Hs.
    + intros p Hp. rewrite Hfs; [done|]. destruct l; exact Hp.
Qed.

Lemma Logger_log_returns (E : env) (l : logger_ref) (lvl : Z) (msg : string) (w : world) :
  (Logger_log E l lvl msg w).1 = Return tt.
Proof. destruct (Logger_log_spec E l lvl msg w) as (w' & -> & _). reflexivity. Qed.

Lemma Logger_log_frame (E : env) (l : logger_ref) (lvl : Z) (msg : string) :
  preserves log_frame (Logger_log E l lvl msg).
Proof.
  intros w. destruct (Logger_log_spec E l lvl msg w) as (w' & -> & Hf & _). exact Hf.
Qed.

(** ** The configuration is read-only after loading *)

Ltac class_goal :=
  match goal with
  | |- Reflexive _ => apply _
  | |- Transitive _ => apply _
  end.

Create HintDb keeps discriminated.

Ltac keeps_step :=
  first
    [ solve [auto 1 with keeps nocore]
    | apply preserves_ret; class_goal
    | apply preserves_raise; class_goal
    | apply preserves_sys_exit; class_goal
    | apply preserves_reads; class_goal
    | apply preserves_config_get; class_goal
    | apply preserves_modify; intros ?; solve [reflexivity | repeat split]
    | apply preserves_bind; try class_goal; [|intros ?]
    | apply preserves_try_except; try class_goal; [|repeat constructor; intros ?; cbn [snd]]
    | match goal with
      | |- preserves _ (match ?x with _ => _ end) => destruct x
      | |- preserves _ (if ?x then _ else _) => destruct x
      end ].

Ltac keeps := repeat keeps_step.

Lemma Logger_log_same_config (E : env) (l : logger_ref) (lvl : Z) (msg : string) :
  preserves same_config (Logger_log E l lvl msg).
Proof. intros w. by destruct (Logger_log_frame E l lvl msg w) as (? & _). Qed.

#[global] Hint Resolve Logger_log_same_config : keeps.

Lemma convert_text_to_speech_same_config (E : env) (text output_path : string) :
  preserves same_config (convert_text_to_speech E text output_path).
Proof.
  unfold convert_text_to_speech, gTTS, gTTS_save, logging_info, basicConfig,
    print, logger_error.
  keeps.
  all: intros w; unfold same_config, modify; simpl; by destruct (root_configured w).
Qed.

Lemma convert_speech_to_text_same_config (E : env) (audio_path output_path language : string) :
  preserves same_config (convert_speech_to_text E audio_path output_path language).
Proof.
  unfold convert_speech_to_text, stt_body, record_audio, recognize_google,
    write_text, logger_error.
  keeps.
Qed.

#[global] Hint Resolve convert_text_to_speech_same_config
  convert_speech_to_text_same_config : keeps.

Lemma run_command_same_config (E : env) (args : argparse.Namespace) :
  preserves same_config (run_command E args).
Proof.
  unfold run_command, os_makedirs, attribute, print.
  keeps.
Qed.

#[global] Hint Resolve run_command_same_config : keeps.

Lemma main_same_config (E : env) (argv : list string) :
  preserves same_config (main E argv).
Proof.
  unfold main, parse_cli_args.
  keeps. intros w. unfold same_config, modify. simpl. by destruct (code =? 0).
Qed.

Lemma module_init_after_read (E : env) (w : world) :
  config (module_init E w).2 = config (config_read E "config.ini" w).2.
Proof.
  unfold module_init. rewrite bind_run.
  destruct (config_read E "config.ini" w) as [[[]|e|c] w1]; simpl; try reflexivity.
  assert (H : preserves same_config
    (log_file ← config_get E "Logging" "log_file" "logs/converter.log";
     log_level ← config_get E "Logging" "log_level" "INFO";
     os_makedirs E (posixpath.dirname log_file) ;;
     modify (set_logger (logging.getLogger "TextSpeechLogger")) ;;
     logger_setLevel (logging.getattr log_level (logging.AInt logging.INFO)) ;;
     file_handler ← FileHandler E log_file;
     logger_addHandler (setFormatter file_handler (logging.FormatTimed " - ")) ;;
     logger_addHandler
       (setFormatter (handler_setLevel StreamHandler logging.INFO)
          (logging.FormatTimed " : ")))).
  { unfold os_makedirs, logger_setLevel, FileHandler, logger_addHandler.
    keeps. }
  apply (H w1).
Qed.

(** C8. The configuration is loaded once, by the module-level statements,
    and nothing that runs afterwards changes it: each of
    [convert_text_to_speech], [convert_speech_to_text] and [main] leaves
    the set of key-value pairs exactly as it found it, and at the end of
    a whole run the configuration is still the one [config.read] produced. *)
Theorem C8_config_loaded_once_never_mutated (E : env) (w : world) :
  (∀ text output_path,
     config (convert_text_to_speech E text output_path w).2 = config w) ∧
  (∀ audio_path output_path language,
     config (convert_speech_to_text E audio_path output_path language w).2 = config w) ∧
  (∀ argv, config (main E argv w).2 = config w) ∧
  (∀ argv, config (script E argv w).2 = config (config_read E "config.ini" w).2).
Proof.
  repeat split.
  - intros. apply convert_text_to_speech_same_config.
  - intros. apply convert_speech_to_text_same_config.
  - intros. apply main_same_config.
  - intros argv. unfold script. rewrite bind_run.
    pose proof (module_init_after_read E w) as Hinit.
    destruct (module_init E w) as [[[]|e|c] w1]; simpl in *; try exact Hinit.
    rewrite <- Hinit. apply main_same_config.
Qed.

(** ** Paths without a directory component *)

Lemma head_of_no_sep (p : string) :
  posixpath.has_sep p = false → posixpath.head_of p = "".
Proof.
  induction p as [|c p IH]; simpl; [done|].
  intros [Hc Hp]%orb_false_elim. rewrite (IH Hp), Hc. reflexivity.
Qed.

Lemma dirname_no_sep (p : string) :
  posixpath.has_sep p = false → posixpath.dirname p = "".
Proof.
  intros H. unfold posixpath.dirname. rewrite (head_of_no_sep p H). reflexivity.
Qed.

Lemma makedirs_empty (E : env) (w : world) :
  os_makedirs E "" w =
  (Raise (Exn FileNotFoundError "[Errno 2] No such file or directory: ''"), w).
Proof. reflexivity. Qed.

Lemma parse_cli_args_parsed (argv : list string) (args : argparse.Namespace)
    (w : world) :
  argparse.parse_args argv = argparse.Parsed args →
  parse_cli_args argv w = (Return args, w).
Proof. intros H. unfold parse_cli_args. rewrite H. reflexivity. Qed.

(** What [main] does with a namespace whose command is ['tts'] or
    ['stt'], once [config.get] has returned the output file. *)
Lemma run_command_tts (E : env) (args : argparse.Namespace) (output_file : string)
    (w : world) :
  argparse.command args = Some "tts" →
  config_get E "TTS" "output_file" "output/speech_output.mp3" w = (Return output_file, w) →
  run_command E args w
  = (os_makedirs E (posixpath.dirname output_file) ;;
     text ← attribute "text" (argparse.text args);
     convert_text_to_speech E text output_file) w.
Proof.
  intros Hcmd Hget. unfold run_command.
  rewrite bool_decide_eq_true_2 by exact Hcmd.
  by rewrite bind_run, Hget.
Qed.

Lemma run_command_stt (E : env) (args : argparse.Namespace) (output_file : string)
    (w : world) :
  argparse.command args = Some "stt" →
  config_get E "STT" "output_file" "output/text_output.txt" w = (Return output_file, w) →
  run_command E args w
  = (os_makedirs E (posixpath.dirname output_file) ;;
     audio ← attribute "audio" (argparse.audio args);
     lang ← attribute "lang" (argparse.lang args);
     convert_speech_to_text E audio output_file lang) w.
Proof.
  intros Hcmd Hget. unfold run_command.
  rewrite bool_decide_eq_false_2 by (rewrite Hcmd; discriminate).
  rewrite bool_decide_eq_true_2 by exact Hcmd.
  by rewrite bind_run, Hget.
Qed.

(** C10. A configured output file (for either conversion) or log file
    whose path has no directory component makes [os.makedirs] run on the
    empty name, which raises [FileNotFoundError]; nothing catches it, so
    the process ends with a traceback (status 1) before any conversion
    library is called, before any file is written and without a log
    record.  (The path is the value [config.get] returns; for the log
    file, the level is read before the directory is made.) *)
Theorem C10_path_without_directory_crashes (E : env) (w : world) :
  let crash := Raise (Exn FileNotFoundError "[Errno 2] No such file or directory: ''") in
  (∀ argv args output_file,
     argparse.parse_args argv = argparse.Parsed args →
     argparse.command args = Some "tts" →
     config_get E "TTS" "output_file" "output/speech_output.mp3" w = (Return output_file, w) →
     posixpath.has_sep output_file = false →
     main E argv w = (crash, w) ∧ exit_status (main E argv w).1 = 1) ∧
  (∀ argv args output_file,
     argparse.parse_args argv = argparse.Parsed args →
     argparse.command args = Some "stt" →
     config_get E "STT" "output_file" "output/text_output.txt" w = (Return output_file, w) →
     posixpath.has_sep output_file = false →
     main E argv w = (crash, w) ∧ exit_status (main E argv w).1 = 1) ∧
  (∀ argv w1 log_file log_level,
     config_read E "config.ini" w = (Return tt, w1) →
     config_get E "Logging" "log_file" "logs/converter.log" w1 = (Return log_file, w1) →
     config_get E "Logging" "log_level" "INFO" w1 = (Return log_level, w1) →
     posixpath.has_sep log_file = false →
     script E argv w = (crash, w1) ∧ exit_status (script E argv w).1 = 1 ∧
     no_conversion w w1 ∧ submitted w1 = submitted w).
Proof.
  cbv zeta. split; [|split].
  - intros argv args output_file Hparse Hcmd Hget Hsep.
    assert (main E argv w =
            (Raise (Exn FileNotFoundError "[Errno 2] No such file or directory: ''"), w)) as ->.
    { unfold main. rewrite bind_run, (parse_cli_args_parsed argv args w Hparse).
      rewrite (run_command_tts E args output_file w Hcmd Hget).
      rewrite (dirname_no_sep _ Hsep), bind_run, makedirs_empty. reflexivity. }
    done.
  - intros argv args output_file Hparse Hcmd Hget Hsep.
    assert (main E argv w =
            (Raise (Exn FileNotFoundError "[Errno 2] No such file or directory: ''"), w)) as ->.
    { unfold main. rewrite bind_run, (parse_cli_args_parsed argv args w Hparse).
      rewrite (run_command_stt E args output_file w Hcmd Hget).
      rewrite (dirname_no_sep _ Hsep), bind_run, makedirs_empty. reflexivity. }
    done.
  - intros argv w1 log_file log_level Hread Hfile Hlevel Hsep.
    assert (script E argv w =
            (Raise (Exn FileNotFoundError "[Errno 2] No such file or directory: ''"), w1)) as ->.
    { unfold script, module_init. rewrite bind_run.
      bind_with Hread. bind_with Hfile. bind_with Hlevel.
      rewrite bind_run, (dirname_no_sep _ Hsep), makedirs_empty. reflexivity. }
    split; [done|]. split; [done|].
    unfold config_read in Hread.
    destruct (fs w !! realpath E "config.ini") as [text|].
    + destruct (parse_ini E text); inversion Hread; subst. by repeat split.
    + inversion Hread; subst. by repeat split.
Qed.

(** At a concrete input: the three ways of giving ["out.mp3"]. *)
Lemma C10_witness :
  let E := env_ok (config_with "Logging" "log_file" "converter.log") in
  let w_tts := set_config (config_with "TTS" "output_file" "out.mp3") (initial_world ∅) in
  let w_stt := set_config (config_with "STT" "output_file" "out.txt") (initial_world ∅) in
  let w_log := initial_world {[ "config.ini" := ini_text "Logging" "log_file" "converter.log" ]} in
  exit_status (main E ["tts"; "--text"; "hello"] w_tts).1 = 1 ∧
  exit_status (main E ["stt"; "--audio"; "a.wav"] w_stt).1 = 1 ∧
  exit_status (script E ["tts"; "--text"; "hello"] w_log).1 = 1.
Proof.
  cbv zeta. split; [|split].
  - eapply (proj1 (C10_path_without_directory_crashes _ _)); reflexivity.
  - eapply (proj1 (proj2 (C10_path_without_directory_crashes _ _))); reflexivity.
  - eapply (proj2 (proj2 (C10_path_without_directory_crashes _ _))); reflexivity.
Defined.

(** ** The command line *)

(** A string that does not begin with a dash is read as a positional by
    every parser. *)
Lemma parse_optional_positional (p : argparse.parser) (s : string) :
  String.prefix "-" s = false → argparse.parse_optional p s = argparse.A.
Proof.
  destruct s as [|c s]; [done|]. simpl.
  unfold argparse.is_dash.
  destruct (Ascii.ascii_dec "-" c) as [<-|Hne].
  - by destruct s.
  - intros _. rewrite (proj2 (Ascii.eqb_neq c "-")); [done | congruence].
Qed.

Lemma not_dashdash (s : string) :
  String.prefix "-" s = false → String.eqb s "--" = false.
Proof.
  intros H. apply String.eqb_neq. intros ->. discriminate H.
Qed.

(** A first word that is neither an option nor a sub-command is refused
    by the parser. *)
Lemma parse_args_invalid_choice (cmd : string) (rest : list string) :
  String.prefix "-" cmd = false → cmd ≠ "tts" → cmd ≠ "stt" →
  argparse.parse_args (cmd :: rest) = argparse.Exit 2.
Proof.
  intros Hdash Htts Hstt.
  unfold argparse.parse_args. simpl.
  rewrite (not_dashdash cmd Hdash), (parse_optional_positional _ cmd Hdash). simpl.
  unfold argparse.subcommand.
  rewrite (proj2 (String.eqb_neq cmd "tts") Htts), (proj2 (String.eqb_neq cmd "stt") Hstt).
  reflexivity.
Qed.

Lemma classify_fst (p : argparse.parser) (args : list string) :
  map fst (argparse.classify p args) = args.
Proof.
  induction args as [|a rest IH]; simpl; [done|].
  destruct (String.eqb a "--"); simpl.
  - f_equal. rewrite map_map. simpl. apply map_id.
  - by rewrite IH.
Qed.

Lemma help_exit_codes (p : argparse.parser) (o : string) (e : option string) :
  argparse.help_exit p o e = 0 ∨ argparse.help_exit p o e = 2.
Proof.
  unfold argparse.help_exit. destruct e as [e|]; [|by left].
  destruct (_ && _); [by left | by right].
Qed.

Lemma consume_exit_codes (p : argparse.parser) (n : nat) :
  ∀ toks values extras c,
    (length toks ≤ n)%nat →
    argparse.consume p toks values extras = argparse.Exit c → c = 0 ∨ c = 2.
Proof.
  induction n as [|n IH]; intros [|[a cls] rest] values extras c Hlen; simpl in *;
    try discriminate; try lia.
  assert (∀ values extras,
            argparse.consume p rest values extras = argparse.Exit c → c = 0 ∨ c = 2)
    as Hrest by (intros; eapply IH; [|eassumption]; lia).
  destruct cls as [| |[o|] e|]; try apply Hrest.
  destruct (logging.assoc o (argparse.option_string_actions p)) as [[|dest]|].
  - intros [= <-]. apply help_exit_codes.
  - destruct e as [v|]; [apply Hrest|].
    destruct rest as [|[v cls'] rest']; [intros [= <-]; by right|].
    destruct cls'; try (intros [= <-]; by right).
    apply IH. simpl in Hlen. lia.
  - intros [= <-]. by right.
Qed.

Lemma parse_known_args_exit_codes (p : argparse.parser) (args : list string) (c : Z) :
  argparse.parse_known_args p args = argparse.Exit c → c = 0 ∨ c = 2.
Proof.
  unfold argparse.parse_known_args.
  destruct (existsb _ _); [intros [= <-]; by right|].
  destruct (argparse.consume p (argparse.classify p args) [] []) as [[values extras]|c'] eqn:Hc.
  - destruct (forallb _ _); [discriminate | intros [= <-]; by right].
  - intros [= <-]. by eapply consume_exit_codes.
Qed.

Lemma subcommand_exit_codes (name : string) (args : list string) (extras : bool) (c : Z) :
  argparse.subcommand name args extras = argparse.Exit c → c = 0 ∨ c = 2.
Proof.
  unfold argparse.subcommand.
  destruct (String.eqb name "tts"); [|destruct (String.eqb name "stt")].
  - destruct (argparse.parse_known_args argparse.tts_parser args) as [[values sub]|c'] eqn:Hp.
    + destruct (_ || _); [intros [= <-]; by right | discriminate].
    + intros [= <-]. by eapply parse_known_args_exit_codes.
  - destruct (argparse.parse_known_args argparse.stt_parser args) as [[values sub]|c'] eqn:Hp.
    + destruct (_ || _); [intros [= <-]; by right | discriminate].
    + intros [= <-]. by eapply parse_known_args_exit_codes.
  - intros [= <-]. by right.
Qed.

Lemma subcommand_well_formed (name : string) (args : list string) (extras : bool)
    (ns : argparse.Namespace) :
  argparse.subcommand name args extras = argparse.Parsed ns → well_formed ns.
Proof.
  unfold argparse.subcommand, argparse.parse_known_args.
  destruct (String.eqb name "tts") eqn:Htts; [|destruct (String.eqb name "stt") eqn:Hstt];
    try discriminate.
  - apply String.eqb_eq in Htts as ->.
    destruct (existsb _ _); [discriminate|].
    destruct (argparse.consume _ _ _ _) as [[values sub]|]; [|discriminate].
    simpl. rewrite andb_true_r.
    destruct (bool_decide (is_Some (logging.assoc "text" values))) eqn:Hreq; [|discriminate].
    destruct (_ || _); [discriminate|]. intros [= <-].
    right; left. simpl. repeat split. by apply bool_decide_eq_true in Hreq.
  - apply String.eqb_eq in Hstt as ->.
    destruct (existsb _ _); [discriminate|].
    destruct (argparse.consume _ _ _ _) as [[values sub]|]; [|discriminate].
    simpl. rewrite andb_true_r.
    destruct (bool_decide (is_Some (logging.assoc "audio" values))) eqn:Hreq; [|discriminate].
    destruct (_ || _); [discriminate|]. intros [= <-].
    right; right. simpl. repeat split; [by apply bool_decide_eq_true in Hreq | eauto].
Qed.

Lemma top_level_outcome (toks : list (string * argparse.token_class)) :
  ∀ extras,
    match argparse.top_level toks extras with
    | argparse.Parsed ns => well_formed ns
    | argparse.Exit c => c = 0 ∨ c = 2
    end.
Proof.
  induction toks as [|[a cls] rest IH]; intros extras; simpl.
  - destruct extras; [by right|]. left. by repeat split.
  - destruct cls as [| |[o|] e|]; try (by right).
    + destruct (argparse.subcommand a (map fst rest) extras) as [ns|c] eqn:Hs.
      * by eapply subcommand_well_formed.
      * by eapply subcommand_exit_codes.
    + apply help_exit_codes.
    + apply IH.
Qed.

(** A sub-command that is accepted is ['tts'] or ['stt'], and nothing
    was left over before it. *)
Lemma subcommand_parsed (name : string) (args : list string) (extras : bool)
    (ns : argparse.Namespace) :
  argparse.subcommand name args extras = argparse.Parsed ns →
  extras = false ∧
  (argparse.command ns = Some "tts" ∨ argparse.command ns = Some "stt").
Proof.
  unfold argparse.subcommand.
  destruct (String.eqb name "tts") eqn:Htts; [|destruct (String.eqb name "stt") eqn:Hstt];
    try discriminate.
  - apply String.eqb_eq in Htts as ->.
    destruct (argparse.parse_known_args _ _) as [[values sub]|]; [|discriminate].
    destruct extras; [discriminate|]. simpl.
    destruct (negb _); [discriminate|]. intros [= <-]. split; [done | by left].
  - apply String.eqb_eq in Hstt as ->.
    destruct (argparse.parse_known_args _ _) as [[values sub]|]; [|discriminate].
    destruct extras; [discriminate|]. simpl.
    destruct (negb _); [discriminate|]. intros [= <-]. split; [done | by right].
Qed.

(** Once an argument has been left over, the parser can only exit. *)
Lemma top_level_extras (toks : list (string * argparse.token_class))
    (ns : argparse.Namespace) :
  argparse.top_level toks true ≠ argparse.Parsed ns.
Proof.
  induction toks as [|[a cls] rest IH]; simpl; [discriminate|].
  destruct cls as [| |[o|] e|]; try discriminate; [|exact IH].
  intros H. by apply subcommand_parsed in H as [? _].
Qed.

(** The empty command line is the only one that gives a namespace
    without a command. *)
Lemma parse_args_nonempty (a : string) (rest : list string) :
  match argparse.parse_args (a :: rest) with
  | argparse.Parsed args =>
      argparse.command args = Some "tts" ∨ argparse.command args = Some "stt"
  | argparse.Exit c => c = 0 ∨ c = 2
  end.
Proof.
  pose proof (top_level_outcome (argparse.classify argparse.top_parser (a :: rest)) false)
    as Hcodes.
  fold (argparse.parse_args (a :: rest)) in Hcodes.
  destruct (argparse.parse_args (a :: rest)) as [args|c] eqn:Hparse; [|exact Hcodes].
  unfold argparse.parse_args in Hparse. simpl in Hparse.
  destruct (String.eqb a "--"); [discriminate Hparse|]. simpl in Hparse.
  destruct (argparse.parse_optional argparse.top_parser a) as [| |[o|] e|];
    try discriminate Hparse.
  - by apply subcommand_parsed in Hparse as [_ ?].
  - by apply top_level_extras in Hparse.
Qed.

(** C5, as the code has it.  With no argument at all, [main] prints its
    message and returns, so the process ends with status 0 and no
    conversion has taken place; the [else] branch does the same for any
    namespace whose command is neither ['tts'] nor ['stt'].  But the
    empty command line is the only one that reaches that branch.  On
    every other command line the parser either accepts ['tts'] or ['stt']
    as the command or ends the process itself, with status 0 after
    printing its help or with status 2 after a usage error, [main]'s
    message unprinted and nothing converted.  In particular a command
    word other than ['tts'] or ['stt'] is refused as an invalid choice,
    with status 2. *)
Theorem C5_no_subcommand_prints_unknown_command_rejected (E : env) (w : world) :
  (main E [] w = (Return tt, set_stdout (stdout w ++ [Line invalid_command_message]) w) ∧
   exit_status (main E [] w).1 = 0) ∧
  (∀ args,
     argparse.command args ≠ Some "tts" → argparse.command args ≠ Some "stt" →
     run_command E args w =
       (Return tt, set_stdout (stdout w ++ [Line invalid_command_message]) w)) ∧
  (∀ argv,
     argv ≠ [] →
     match argparse.parse_args argv with
     | argparse.Parsed args =>
         argparse.command args = Some "tts" ∨ argparse.command args = Some "stt"
     | argparse.Exit c =>
         (c = 0 ∧ main E argv w = (SystemExit 0, set_stdout (stdout w ++ [ArgparseHelp]) w)) ∨
         (c = 2 ∧ main E argv w = (SystemExit 2, set_stderr (stderr w ++ [ArgparseError]) w))
     end) ∧
  (∀ cmd rest,
     String.prefix "-" cmd = false → cmd ≠ "tts" → cmd ≠ "stt" →
     main E (cmd :: rest) w = (SystemExit 2, set_stderr (stderr w ++ [ArgparseError]) w) ∧
     exit_status (main E (cmd :: rest) w).1 = 2).
Proof.
  split; [|split; [|split]].
  - split; reflexivity.
  - intros args Htts Hstt. unfold run_command.
    rewrite !bool_decide_eq_false_2 by assumption. reflexivity.
  - intros [|a rest] Hne; [done|].
    pose proof (parse_args_nonempty a rest) as H.
    unfold main, parse_cli_args.
    destruct (argparse.parse_args (a :: rest)) as [args|c]; [exact H|].
    destruct H as [-> | ->]; [left | right]; done.
  - intros cmd rest Hdash Htts Hstt.
    assert (main E (cmd :: rest) w =
            (SystemExit 2, set_stderr (stderr w ++ [ArgparseError]) w)) as ->.
    { unfold main, parse_cli_args.
      rewrite (parse_args_invalid_choice cmd rest Hdash Htts Hstt). reflexivity. }
    done.
Qed.

(** At a concrete input: the command word [foo], and three command lines
    without a command word. *)
Lemma C5_witness :
  exit_status (main (env_ok configparser.empty) ["foo"; "--text"; "hello"]
                 (initial_world ∅)).1 = 2 ∧
  run_command (env_ok configparser.empty)
    {| argparse.command := Some "foo"; argparse.text := None;
       argparse.audio := None; argparse.lang := None |} (initial_world ∅)
  = (Return tt, set_stdout ([] ++ [Line invalid_command_message]) (initial_world ∅)) ∧
  main (env_ok configparser.empty) ["--verbose"] (initial_world ∅)
  = (SystemExit 2, set_stderr ([] ++ [ArgparseError]) (initial_world ∅)).
Proof.
  split; [|split].
  - apply (proj2 (proj2 (proj2 (C5_no_subcommand_prints_unknown_command_rejected
                           (env_ok configparser.empty) (initial_world ∅)))));
      [reflexivity | discriminate | discriminate].
  - apply (proj1 (proj2 (C5_no_subcommand_prints_unknown_command_rejected
                           (env_ok configparser.empty) (initial_world ∅))));
      discriminate.
  - pose proof (proj1 (proj2 (proj2 (C5_no_subcommand_prints_unknown_command_rejected
                           (env_ok configparser.empty) (initial_world ∅))))
                  ["--verbose"]) as H.
    destruct H as [[H _] | [_ H]]; [discriminate | discriminate H | exact H].
Defined.

(** C5, as stated, fails: run with the single argument [foo], the
    process ends with status 2, not 0, and [main] prints nothing; and so
    it does with no command word at all but an unknown option, a
    one-letter one, or a bare [--]. *)
Lemma C5_counterexample :
  let status := λ argv, (run (env_ok configparser.empty) ∅ argv).1 in
  let r := run (env_ok configparser.empty) ∅ ["foo"] in
  r.1 = 2 ∧ r.1 ≠ 0 ∧ stdout r.2 = [] ∧ stderr r.2 = [ArgparseError] ∧
  status ["--verbose"] = 2 ∧ status ["-x"] = 2 ∧ status ["--"] = 2.
Proof. cbv zeta. repeat split; vm_compute; (reflexivity || discriminate). Qed.

(** ** Speech to text *)

Ltac run_m :=
  unfold mbind, M_bind, mret, M_ret, modify, reads, raise, sys_exit; simpl.

(** Until a transcript is in hand, only the conversion library has been
    called: files, loggers and consoles are as before. *)
Lemma transcript_frame (E : env) (audio_path language : string) (w : world) :
  let r := transcript E audio_path language w in
  fs r.2 = fs w ∧ log_frame (set_calls (calls r.2) w) r.2 ∧
  submitted r.2 = submitted w ∧ stderr r.2 = stderr w ∧
  ∀ c, r.1 ≠ SystemExit c.
Proof.
  unfold transcript, record_audio, recognize_google. run_m.
  destruct (fs w !! realpath E audio_path) as [content|]; simpl; [|by repeat split].
  destruct (audio_decode E audio_path content) as [e|audio]; simpl; [by repeat split|].
  destruct (google_recognize E audio language) as [e|text]; simpl; by repeat split.
Qed.

Lemma stt_body_run (E : env) (audio_path output_path language : string) (w : world) :
  stt_body E audio_path output_path language w =
  match transcript E audio_path language w with
  | (Return text, w1) => write_text E output_path text w1
  | (Raise e, w1) => (Raise e, w1)
  | (SystemExit c, w1) => (SystemExit c, w1)
  end.
Proof.
  unfold stt_body, transcript. rewrite <- bind_assoc. reflexivity.
Qed.

Lemma write_text_never_exits (E : env) (path text : string) (w : world) (c : Z) :
  (write_text E path text w).1 ≠ SystemExit c.
Proof. unfold write_text. by destruct (open_error E path). Qed.

Lemma stt_body_never_exits (E : env) (audio_path output_path language : string)
    (w : world) (c : Z) :
  (stt_body E audio_path output_path language w).1 ≠ SystemExit c.
Proof.
  rewrite stt_body_run.
  pose proof (transcript_frame E audio_path language w) as (_ & _ & _ & _ & Hexit).
  destruct (transcript E audio_path language w) as [[text|e|c'] w1]; simpl in *.
  - apply write_text_never_exits.
  - done.
  - by destruct (Hexit c').
Qed.

(** Whatever the exception, exactly one clause of
    [convert_speech_to_text] handles it, with the message of its
    category. *)
Lemma stt_dispatch (E : env) (e : exn) (w : world) :
  dispatch
    [ (ExceptFileNotFoundError, λ err,
        logger_error E ("Audio file not found: " +:+ exn_str err));
      (ExceptUnknownValueError, λ _,
        logger_error E "Speech was unintelligible.");
      (ExceptRequestError, λ re,
        logger_error E ("Sppech recognition API error: " +:+ exn_str re));
      (ExceptException, λ err,
        logger_error E ("Unexpected error in STT: " +:+ exn_str err)) ] e w
  = logger_error E (stt_log_message e) w.
Proof.
  unfold stt_log_message, isinstance. destruct e as [[] s]; reflexivity.
Qed.

Lemma convert_speech_to_text_run (E : env) (audio_path output_path language : string)
    (w : world) :
  convert_speech_to_text E audio_path output_path language w =
  match stt_body E audio_path output_path language w with
  | (Raise e, w1) => logger_error E (stt_log_message e) w1
  | r => r
  end.
Proof.
  unfold convert_speech_to_text. rewrite try_except_run.
  destruct (stt_body E audio_path output_path language w) as [[[]|e|c] w1]; try reflexivity.
  apply stt_dispatch.
Qed.

Lemma logger_error_spec (E : env) (msg : string) (w : world) :
  ∃ w', logger_error E msg w = (Return tt, w') ∧
        log_frame w w' ∧
        submitted w' = submitted w ++ [error_record E (logger w) msg] ∧
        ∀ p, p ∉ log_files w → fs w' !! p = fs w !! p.
Proof.
  destruct (Logger_log_spec E TextSpeechLogger logging.ERROR msg w)
    as (w' & Hrun & Hframe & Hsub & Hfs).
  exists w'. repeat split; try apply Hframe; done.
Qed.

(** C1, as the code has it.  When no transcript is obtained (the audio
    file is missing, the speech is unintelligible, the request fails, or
    anything else is raised first), [convert_speech_to_text] never opens
    the destination: the only files that change are those the failure is
    logged to.  So the file the destination path leads to is neither
    created nor modified, provided it is not a file a log handler writes
    to, under whatever path the handler opened it. *)
Theorem C1_no_transcript_no_output_file (E : env) (w : world)
    (audio_path output_path language : string) :
  returned (transcript E audio_path language w).1 = false →
  realpath E output_path ∉ log_files w →
  fs (convert_speech_to_text E audio_path output_path language w).2 !! realpath E output_path
  = fs w !! realpath E output_path ∧
  ∀ p, realpath E p ∉ log_files w →
       fs (convert_speech_to_text E audio_path output_path language w).2 !! realpath E p
       = fs w !! realpath E p.
Proof.
  intros Hfail Hout.
  assert (∀ file, file ∉ log_files w →
    fs (convert_speech_to_text E audio_path output_path language w).2 !! file = fs w !! file)
    as Hall; [|by split; [apply Hall | intros p; apply Hall]].
  intros file Hfile.
  rewrite convert_speech_to_text_run, stt_body_run.
  pose proof (transcript_frame E audio_path language w) as (Hfs & Hframe & _ & _ & _).
  destruct (transcript E audio_path language w) as [[text|e|c] w1]; simpl in *.
  - discriminate Hfail.
  - destruct (logger_error_spec E (stt_log_message e) w1) as (w' & -> & _ & _ & Hlog).
    simpl. rewrite Hlog, Hfs; [done|].
    destruct Hframe as (_ & Hroot & Hlogger & _). simpl in *.
    unfold log_files, handler_chain, root_handlers. rewrite Hroot, Hlogger. exact Hfile.
  - by rewrite Hfs.
Qed.

(** At a concrete input: a missing audio file, the default paths. *)
Lemma C1_witness :
  let E := env_ok configparser.empty in
  let w := (module_init E (initial_world ∅)).2 in
  fs (convert_speech_to_text E "missing.wav" "output/text_output.txt" "en" w).2
    !! realpath E "output/text_output.txt" = fs w !! realpath E "output/text_output.txt".
Proof.
  cbv zeta.
  refine (proj1 (C1_no_transcript_no_output_file (env_ok configparser.empty)
                   (module_init (env_ok configparser.empty) (initial_world ∅)).2
                   "missing.wav" "output/text_output.txt" "en" _ _)).
  - vm_compute. reflexivity.
  - apply (bool_decide_unpack _). vm_compute. exact I.
Defined.

(** C1, as stated, fails when the destination is the log file: the
    missing audio file is reported through the logger, whose file handler
    appends the report to that very file.  (This is what a run with
    [output_file = logs/converter.log] under [[STT]] in [config.ini]
    does, and just as well one with [output_file = ./logs/converter.log],
    another path to the same file.) *)
Lemma C1_counterexample :
  let E := env_ok configparser.empty in
  let w := (module_init E (initial_world ∅)).2 in
  let w' := (convert_speech_to_text E "missing.wav" "logs/converter.log" "en" w).2 in
  returned (transcript E "missing.wav" "en" w).1 = false ∧
  fs w !! realpath E "logs/converter.log" = Some "" ∧
  fs w' !! realpath E "logs/converter.log" ≠ fs w !! realpath E "logs/converter.log" ∧
  let r := run (env_ok (config_with "STT" "output_file" "logs/converter.log"))
               {[ "config.ini" := ini_text "STT" "output_file" "logs/converter.log" ]}
               ["stt"; "--audio"; "missing.wav"] in
  let r' := run (env_ok (config_with "STT" "output_file" "./logs/converter.log"))
               {[ "config.ini" := ini_text "STT" "output_file" "./logs/converter.log" ]}
               ["stt"; "--audio"; "missing.wav"] in
  r.1 = 0 ∧ fs r.2 !! realpath E "logs/converter.log" ≠ Some "" ∧
  r'.1 = 0 ∧ fs r'.2 !! realpath E "./logs/converter.log" ≠ Some "" ∧
  realpath E "./logs/converter.log" = realpath E "logs/converter.log".
Proof.
  cbv zeta. repeat split; try (vm_compute; reflexivity); vm_compute; discriminate.
Qed.


(** With the logger as the module-level statements set it up, an error
    record reaches both the log file and the console, unless the
    configured level is above ERROR. *)
Lemma logger_error_reaches_file_and_console (E : env) (msg path : string) (n : Z)
    (w : world) :
  logger w = configured_logger path n →
  root_configured w = false →
  (if n =? logging.NOTSET then logging.root_level else n) ≤ logging.ERROR →
  let w' := (logger_error E msg w).2 in
  fs w' !! path
  = Some (default "" (fs w !! path) +:+
          (asctime E +:+ " - " +:+ "ERROR" +:+ " - " +:+ msg) +:+ nl) ∧
  stderr w'
  = stderr w ++ [Line (asctime E +:+ " : " +:+ "ERROR" +:+ " : " +:+ msg)].
Proof.
  intros Hlogger Hroot Hlevel.
  assert ((logging.ERROR <? getEffectiveLevel w TextSpeechLogger) = false) as Hcmp.
  { unfold getEffectiveLevel. rewrite Hlogger. simpl. apply Z.ltb_ge. exact Hlevel. }
  unfold logger_error, Logger_log. rewrite Hcmp.
  unfold callHandlers, handler_chain, root_handlers. simpl. rewrite Hlogger, Hroot. simpl.
  split; [apply lookup_insert_eq | reflexivity].
Qed.

(** The four messages cannot be mistaken for one another, whatever text
    the exceptions carry. *)
Lemma stt_messages_distinct (s1 s2 s3 : string) :
  NoDup [ "Audio file not found: " +:+ s1;
          "Speech was unintelligible.";
          "Sppech recognition API error: " +:+ s2;
          "Unexpected error in STT: " +:+ s3 ].
Proof.
  repeat constructor; rewrite ?not_elem_of_cons; repeat split;
    try apply not_elem_of_nil; simpl; discriminate.
Qed.

(** C2. [convert_speech_to_text] always returns normally (it returns
    [None]; no exception and no [SystemExit] leaves it), whatever
    happens inside.  A failure of its body is logged once, at level
    ERROR, with the message of its category: a missing audio file
    ([FileNotFoundError]), unintelligible speech ([UnknownValueError]), a
    failed request to the recognition service ([RequestError]), and one
    generic message for every other exception; the four messages are
    pairwise different.  When the body succeeds nothing is added. *)
Theorem C2_stt_failures_logged_by_category_and_swallowed (E : env) (w : world)
    (audio_path output_path language : string) :
  let call := convert_speech_to_text E audio_path output_path language w in
  call.1 = Return tt ∧
  exit_status call.1 = 0 ∧
  (∀ e w1,
     stt_body E audio_path output_path language w = (Raise e, w1) →
     call = logger_error E (stt_log_message e) w1 ∧
     submitted call.2 = submitted w1 ++ [error_record E (logger w1) (stt_log_message e)] ∧
     (exn_type e = FileNotFoundError →
        stt_log_message e = "Audio file not found: " +:+ exn_str e) ∧
     (exn_type e = UnknownValueError →
        stt_log_message e = "Speech was unintelligible.") ∧
     (exn_type e = RequestError →
        stt_log_message e = "Sppech recognition API error: " +:+ exn_str e) ∧
     (exn_type e ≠ FileNotFoundError → exn_type e ≠ UnknownValueError →
      exn_type e ≠ RequestError →
        stt_log_message e = "Unexpected error in STT: " +:+ exn_str e)) ∧
  (∀ w1,
     stt_body E audio_path output_path language w = (Return tt, w1) →
     call = (Return tt, w1)) ∧
  (∀ s1 s2 s3,
     NoDup [ "Audio file not found: " +:+ s1;
             "Speech was unintelligible.";
             "Sppech recognition API error: " +:+ s2;
             "Unexpected error in STT: " +:+ s3 ]).
Proof.
  cbv zeta. rewrite convert_speech_to_text_run.
  pose proof (stt_body_never_exits E audio_path output_path language w) as Hexit.
  destruct (stt_body E audio_path output_path language w) as [[[]|e|c] w1] eqn:Hbody;
    simpl in *.
  - split; [done|]. split; [done|]. split; [done|].
    split; [|apply stt_messages_distinct].
    intros w1' [= ->]. reflexivity.
  - destruct (logger_error_spec E (stt_log_message e) w1) as (w' & Hrun & _ & Hsub & _).
    rewrite Hrun. simpl.
    split; [done|]. split; [done|]. split; [|split; [done|apply stt_messages_distinct]].
    intros e' w1' [= <- <-]. rewrite Hrun. simpl.
    split; [done|]. split; [done|]. unfold stt_log_message.
    split; [by intros ->|]. split; [by intros ->|]. split; [by intros ->|].
    intros H1 H2 H3. by destruct (exn_type e).
  - by destruct (Hexit c).
Qed.

(** At a concrete input: an audio file the service cannot make out. *)
Lemma C2_witness :
  let E := env_unintelligible configparser.empty in
  let w := (module_init E (initial_world {[ "a.wav" := "RIFF" ]})).2 in
  convert_speech_to_text E "a.wav" "output/text_output.txt" "en" w
  = logger_error E "Speech was unintelligible."
      (set_calls [CallAudioFile "a.wav"; CallRecognizeGoogle "RIFF" "en"] w).
Proof.
  cbv zeta.
  refine (proj1 (proj1 (proj2 (proj2
    (C2_stt_failures_logged_by_category_and_swallowed
       (env_unintelligible configparser.empty)
       (module_init (env_unintelligible configparser.empty)
          (initial_world {[ "a.wav" := "RIFF" ]})).2
       "a.wav" "output/text_output.txt" "en"))) (Exn UnknownValueError "") _ _)).
  vm_compute. reflexivity.
Defined.


(** ** Text to speech *)

Lemma synthesis_spec (E : env) (text output_path : string) (w : world) :
  let r := synthesis E text output_path w in
  log_frame (set_calls (calls r.2) w) r.2 ∧
  submitted r.2 = submitted w ∧ stderr r.2 = stderr w ∧
  (∀ c, r.1 ≠ SystemExit c) ∧
  (calls r.2 = calls w ++ [CallGTTS text "en"] ∧ fs r.2 = fs w ∧ returned r.1 = false ∨
   calls r.2 = calls w ++ [CallGTTS text "en"; CallSave text "en" output_path] ∧
   (returned r.1 = true → fs r.2 = <[realpath E output_path := (gtts_stream E text "en").1]> (fs w))).
Proof.
  unfold synthesis, gTTS, gTTS_save. run_m.
  destruct (gtts_init_error E text "en") as [e|]; simpl.
  { repeat split; try done. by left. }
  rewrite <- app_assoc. simpl.
  destruct (open_error E output_path) as [e|]; simpl.
  { repeat split; try done. right. by split. }
  destruct (gtts_stream E text "en").2 as [e|]; simpl.
  - repeat split; try done. right. by split.
  - repeat split; try done. right. by split.
Qed.

Lemma tts_dispatch (E : env) (e : exn) (w : world) :
  dispatch
    [ (ExceptPermissionError, λ pe,
        logger_error E ("Permission denied while saving file: " +:+ exn_str pe));
      (ExceptException, λ err,
        logger_error E ("Unexpected error occured in TTS: " +:+ exn_str err)) ] e w
  = logger_error E (tts_log_message e) w.
Proof.
  unfold tts_log_message, isinstance. destruct e as [[] s]; reflexivity.
Qed.

(** After a successful save the function reports on the root logger and
    on the standard output, and that cannot fail. *)
Lemma root_handlers_no_file (w : world) :
  file_targets (handler_chain w RootLogger) = [].
Proof. unfold handler_chain, root_handlers. by destruct (root_configured w). Qed.

Lemma tts_report_spec (E : env) (msg : string) (w : world) :
  ∃ w', (logging_info E msg ;; print msg) w = (Return tt, w') ∧
        calls w' = calls w ∧ fs w' = fs w.
Proof.
  unfold logging_info, basicConfig, print. rewrite bind_assoc, bind_modify, !bind_run.
  set (w0 := if root_configured w then w else set_root_configured true w).
  destruct (Logger_log_spec E RootLogger logging.INFO msg w0)
    as (w1 & -> & Hframe & _ & Hfs).
  eexists. split; [reflexivity|]. simpl.
  assert (calls w0 = calls w ∧ fs w0 = fs w) as (Hc & Hf).
  { subst w0. by destruct (root_configured w). }
  split.
  - destruct Hframe as (_ & _ & _ & _ & ->). exact Hc.
  - rewrite <- Hf. apply map_eq. intros p. apply Hfs.
    rewrite root_handlers_no_file. apply not_elem_of_nil.
Qed.

Lemma convert_text_to_speech_run (E : env) (text output_path : string) (w : world) :
  convert_text_to_speech E text output_path w =
  match synthesis E text output_path w with
  | (Return _, w1) =>
      (logging_info E ("Speech saved to: " +:+ output_path) ;;
       print ("Speech saved to: " +:+ output_path)) w1
  | (Raise e, w1) => logger_error E (tts_log_message e) w1
  | (SystemExit c, w1) => (SystemExit c, w1)
  end.
Proof.
  unfold convert_text_to_speech. rewrite try_except_run.
  change (tts ← gTTS E text "en";
          gTTS_save E tts output_path ;;
          logging_info E ("Speech saved to: " +:+ output_path) ;;
          print ("Speech saved to: " +:+ output_path))
    with (tts ← gTTS E text "en";
          (gTTS_save E tts output_path ≫= λ _,
           logging_info E ("Speech saved to: " +:+ output_path) ;;
           print ("Speech saved to: " +:+ output_path))).
  rewrite <- (bind_assoc (gTTS E text "en")).
  fold (synthesis E text output_path). rewrite bind_run.
  destruct (synthesis E text output_path w) as [[[]|e|c] w1].
  - destruct (tts_report_spec E ("Speech saved to: " +:+ output_path) w1) as (w' & -> & _).
    reflexivity.
  - apply tts_dispatch.
  - reflexivity.
Qed.

(** C3. [convert_text_to_speech] always returns normally (it returns
    [None] on success and on failure alike, so the caller learns
    nothing).  When the synthesis call or the file save raises a
    [PermissionError], the permission-denied message is logged at level
    ERROR; when it raises anything else, the generic message is. *)
Theorem C3_tts_failures_logged_and_swallowed (E : env) (w : world)
    (text output_path : string) :
  let call := convert_text_to_speech E text output_path w in
  call.1 = Return tt ∧
  ∀ e w1,
    synthesis E text output_path w = (Raise e, w1) →
    call = logger_error E (tts_log_message e) w1 ∧
    submitted call.2 = submitted w1 ++ [error_record E (logger w1) (tts_log_message e)] ∧
    (exn_type e = PermissionError →
       tts_log_message e = "Permission denied while saving file: " +:+ exn_str e) ∧
    (exn_type e ≠ PermissionError →
       tts_log_message e = "Unexpected error occured in TTS: " +:+ exn_str e).
Proof.
  cbv zeta. rewrite convert_text_to_speech_run.
  pose proof (synthesis_spec E text output_path w) as (_ & _ & _ & Hexit & _).
  destruct (synthesis E text output_path w) as [[[]|e|c] w1]; cbn [fst snd returned] in *.
  - destruct (tts_report_spec E ("Speech saved to: " +:+ output_path) w1) as (w' & -> & _).
    split; [done|]. intros e w1' [=].
  - destruct (logger_error_spec E (tts_log_message e) w1) as (w' & Hrun & _ & Hsub & _).
    rewrite Hrun. split; [done|].
    intros e' w1' [= <- <-]. rewrite Hrun. simpl.
    split; [done|]. split; [done|]. unfold tts_log_message.
    split; [by intros ->|]. intros Hne. by destruct (exn_type e).
  - by destruct (Hexit c).
Qed.

(** At a concrete input: a destination that may not be written. *)
Lemma C3_witness :
  let E := env_permission_denied configparser.empty in
  let w := initial_world ∅ in
  convert_text_to_speech E "hello" "output/speech_output.mp3" w
  = logger_error E
      "Permission denied while saving file: [Errno 13] Permission denied: 'output/speech_output.mp3'"
      (set_calls [CallGTTS "hello" "en"; CallSave "hello" "en" "output/speech_output.mp3"] w).
Proof.
  cbv zeta.
  refine (proj1 (proj2
    (C3_tts_failures_logged_and_swallowed
       (env_permission_denied configparser.empty) (initial_world ∅)
       "hello" "output/speech_output.mp3")
    (Exn PermissionError "[Errno 13] Permission denied: 'output/speech_output.mp3'") _ _)).
  vm_compute. reflexivity.
Defined.

Lemma convert_text_to_speech_calls (E : env) (text output_path : string) (w : world) :
  ∃ more, calls (convert_text_to_speech E text output_path w).2
          = calls w ++ CallGTTS text "en" :: more ∧
          (more = [] ∨ more = [CallSave text "en" output_path]).
Proof.
  rewrite convert_text_to_speech_run.
  pose proof (synthesis_spec E text output_path w) as (_ & _ & _ & Hexit & Hcalls).
  assert (∃ more, calls (synthesis E text output_path w).2
                  = calls w ++ CallGTTS text "en" :: more ∧
                  (more = [] ∨ more = [CallSave text "en" output_path])) as Hsyn.
  { destruct Hcalls as [(-> & _)|(-> & _)]; eexists; split; eauto. }
  destruct (synthesis E text output_path w) as [[[]|e|c] w1]; cbn [fst snd returned] in *.
  - destruct (tts_report_spec E ("Speech saved to: " +:+ output_path) w1)
      as (w' & -> & Hc & _). simpl. rewrite Hc. exact Hsyn.
  - destruct (logger_error_spec E (tts_log_message e) w1)
      as (w' & -> & (_ & _ & _ & _ & Hc) & _). simpl. rewrite Hc. exact Hsyn.
  - exact Hsyn.
Qed.

Lemma convert_text_to_speech_success (E : env) (text output_path : string) (w : world) :
  returned (synthesis E text output_path w).1 = true →
  calls (convert_text_to_speech E text output_path w).2
  = calls w ++ [CallGTTS text "en"; CallSave text "en" output_path] ∧
  fs (convert_text_to_speech E text output_path w).2
  = <[realpath E output_path := (gtts_stream E text "en").1]> (fs w).
Proof.
  intros Hok. rewrite convert_text_to_speech_run.
  pose proof (synthesis_spec E text output_path w) as (_ & _ & _ & _ & Hcalls).
  destruct (synthesis E text output_path w) as [[[]|e|c] w1]; cbn [fst snd returned] in *;
    try discriminate Hok.
  destruct (tts_report_spec E ("Speech saved to: " +:+ output_path) w1)
    as (w' & -> & Hc & Hf). simpl.
  rewrite Hc, Hf.
  destruct Hcalls as [(_ & _ & [=])|(-> & ->)]; done.
Qed.

(** C6. [convert_text_to_speech] asks the synthesis library for the text
    in English: the call it makes is [gTTS(text, lang='en')], the
    language being a constant of the function that neither the
    configuration nor the command line (not even [--lang]) can change,
    and the save that follows targets the destination it was given.
    When synthesis and save go through, the file at the destination holds
    exactly what the service streamed for that text in English. *)
Theorem C6_tts_requests_english_and_saves_to_destination (E : env) (w : world)
    (text output_path : string) :
  let call := convert_text_to_speech E text output_path w in
  (∃ more, calls call.2 = calls w ++ CallGTTS text "en" :: more ∧
           (more = [] ∨ more = [CallSave text "en" output_path])) ∧
  (returned (synthesis E text output_path w).1 = true →
   calls call.2 = calls w ++ [CallGTTS text "en"; CallSave text "en" output_path] ∧
   fs call.2 = <[realpath E output_path := (gtts_stream E text "en").1]> (fs w)) ∧
  (∀ args,
     argparse.command args = Some "tts" →
     ∃ made, calls (run_command E args w).2 = calls w ++ made ∧
             Forall (λ c, synthesis_language c = Some "en") made).
Proof.
  cbv zeta. split; [apply convert_text_to_speech_calls|]. split.
  - apply convert_text_to_speech_success.
  - intros args Hcmd.
    destruct (config_get_outcome E "TTS" "output_file" "output/speech_output.mp3" w)
      as [[output_file Hget]|[e Hget]].
    + rewrite (run_command_tts E args output_file w Hcmd Hget), bind_run.
      unfold os_makedirs.
      destruct (String.eqb _ ""); [by exists []; rewrite app_nil_r|].
      destruct (makedirs_error E _); [by exists []; rewrite app_nil_r|].
      simpl. unfold attribute. destruct (argparse.text args) as [text'|].
      * rewrite bind_ret.
        destruct (convert_text_to_speech_calls E text' output_file w)
          as (more & -> & Hmore).
        eexists. split; [reflexivity|].
        destruct Hmore as [->| ->]; repeat constructor.
      * exists []. by rewrite app_nil_r.
    + unfold run_command. rewrite bool_decide_eq_true_2 by exact Hcmd.
      rewrite bind_run, Hget. exists []. by rewrite app_nil_r.
Qed.

(** At a concrete input: the service answers and the file can be
    written. *)
Lemma C6_witness :
  let E := env_ok configparser.empty in
  let w := (module_init E (initial_world ∅)).2 in
  fs (convert_text_to_speech E "hello" "output/speech_output.mp3" w).2
  = <[ realpath E "output/speech_output.mp3" := (gtts_stream E "hello" "en").1 ]> (fs w) ∧
  ∃ made,
    calls (run_command E
             {| argparse.command := Some "tts"; argparse.text := Some "hello";
                argparse.audio := None; argparse.lang := Some "fr" |} w).2
    = calls w ++ made ∧
    Forall (λ c, synthesis_language c = Some "en") made.
Proof.
  cbv zeta. split.
  - refine (proj2 (proj1 (proj2
      (C6_tts_requests_english_and_saves_to_destination (env_ok configparser.empty)
         (module_init (env_ok configparser.empty) (initial_world ∅)).2
         "hello" "output/speech_output.mp3")) _)); vm_compute; reflexivity.
  - refine (proj2 (proj2
      (C6_tts_requests_english_and_saves_to_destination (env_ok configparser.empty)
         (module_init (env_ok configparser.empty) (initial_world ∅)).2
         "hello" "output/speech_output.mp3")) _ _). reflexivity.
Defined.

(** ** Configuration defaults *)

Lemma get_lacks (lower repr : string → string) (c : configparser.ConfigParser)
    (section option fallback : string) :
  configparser.lacks c section option →
  configparser.get lower repr c section option fallback = inr fallback.
Proof.
  unfold configparser.lacks, configparser.get.
  intros [[Hnone Hne]|[Hsec Hdef]].
  - rewrite Hnone, (proj2 (String.eqb_neq section "DEFAULT") Hne). reflexivity.
  - destruct (configparser.sections c !! section) as [d|] eqn:Hd.
    + rewrite (Hsec d eq_refl), Hdef. reflexivity.
    + destruct (String.eqb section "DEFAULT"); [|reflexivity].
      rewrite lookup_empty, Hdef. reflexivity.
Qed.

Lemma config_get_lacks (E : env) (section option fallback : string) (w : world) :
  configparser.lacks (config w) section option →
  config_get E section option fallback w = (Return fallback, w).
Proof. intros H. unfold config_get. by rewrite (get_lacks _ _ _ _ _ _ H). Qed.

Lemma lacks_empty (section option : string) :
  configparser.lacks configparser.empty section option.
Proof.
  right. split; [|apply lookup_empty].
  intros d Hd. simpl in Hd. by rewrite lookup_empty in Hd.
Qed.

Lemma config_read_absent (E : env) (w : world) :
  fs w !! realpath E "config.ini" = None →
  config_read E "config.ini" w = (Return tt, set_config configparser.empty w).
Proof. intros H. unfold config_read. rewrite H. reflexivity. Qed.


(** C4. Without a configuration file [config.read] leaves the parser
    empty, and an empty parser lacks every key.  Whenever the loaded
    configuration lacks the keys the script reads, the fallbacks are what
    the program uses: the logger is set up at level INFO with
    [logs/converter.log] as its file (after creating the directory
    [logs]), text to speech writes to [output/speech_output.mp3] and
    speech to text to [output/text_output.txt] (after creating the
    directory [output]). *)
Theorem C4_defaults_when_configuration_absent_or_lacking (E : env) (w : world) :
  (fs w !! realpath E "config.ini" = None →
   config_read E "config.ini" w = (Return tt, set_config configparser.empty w) ∧
   ∀ section option, configparser.lacks configparser.empty section option) ∧
  (∀ w1,
     config_read E "config.ini" w = (Return tt, w1) →
     configparser.lacks (config w1) "Logging" "log_file" →
     configparser.lacks (config w1) "Logging" "log_level" →
     module_init E w =
       (os_makedirs E "logs" ;;
        modify (set_logger (logging.getLogger "TextSpeechLogger")) ;;
        logger_setLevel (logging.AInt logging.INFO) ;;
        file_handler ← FileHandler E "logs/converter.log";
        logger_addHandler (setFormatter file_handler (logging.FormatTimed " - ")) ;;
        logger_addHandler
          (setFormatter (handler_setLevel StreamHandler logging.INFO)
             (logging.FormatTimed " : "))) w1 ∧
     ∀ w2, module_init E w = (Return tt, w2) →
           logger w2 = configured_logger (realpath E "logs/converter.log") logging.INFO ∧
           is_Some (fs w2 !! realpath E "logs/converter.log")) ∧
  (∀ args text,
     configparser.lacks (config w) "TTS" "output_file" →
     argparse.command args = Some "tts" → argparse.text args = Some text →
     run_command E args w =
       (os_makedirs E "output" ;;
        convert_text_to_speech E text "output/speech_output.mp3") w) ∧
  (∀ args audio lang,
     configparser.lacks (config w) "STT" "output_file" →
     argparse.command args = Some "stt" →
     argparse.audio args = Some audio → argparse.lang args = Some lang →
     run_command E args w =
       (os_makedirs E "output" ;;
        convert_speech_to_text E audio "output/text_output.txt" lang) w).
Proof.
  split; [|split; [|split]].
  - intros Habsent. split; [by apply config_read_absent | apply lacks_empty].
  - intros w1 Hread Hfile Hlevel.
    assert (module_init E w =
       (os_makedirs E "logs" ;;
        modify (set_logger (logging.getLogger "TextSpeechLogger")) ;;
        logger_setLevel (logging.AInt logging.INFO) ;;
        file_handler ← FileHandler E "logs/converter.log";
        logger_addHandler (setFormatter file_handler (logging.FormatTimed " - ")) ;;
        logger_addHandler
          (setFormatter (handler_setLevel StreamHandler logging.INFO)
             (logging.FormatTimed " : "))) w1) as Hinit.
    { unfold module_init. bind_with Hread.
      bind_with (config_get_lacks E "Logging" "log_file" "logs/converter.log" w1 Hfile).
      bind_with (config_get_lacks E "Logging" "log_level" "INFO" w1 Hlevel).
      reflexivity. }
    split; [exact Hinit|].
    intros w2. rewrite Hinit. unfold os_makedirs, FileHandler, logger_setLevel. simpl.
    run_m.
    destruct (makedirs_error E "logs"); [discriminate|].
    destruct (open_error E "logs/converter.log"); [discriminate|].
    simpl. intros [= <-]. simpl. split; [reflexivity|].
    rewrite lookup_insert_eq. eauto.
  - intros args text Hlacks Hcmd Htext.
    rewrite (run_command_tts E args "output/speech_output.mp3" w Hcmd
               (config_get_lacks E _ _ _ w Hlacks)), Htext.
    reflexivity.
  - intros args audio lang Hlacks Hcmd Haudio Hlang.
    rewrite (run_command_stt E args "output/text_output.txt" w Hcmd
               (config_get_lacks E _ _ _ w Hlacks)), Haudio, Hlang.
    reflexivity.
Qed.

(** At a concrete input: no [config.ini] in the working directory. *)
Lemma C4_witness :
  let E := env_ok configparser.empty in
  let w1 := set_config configparser.empty (initial_world ∅) in
  logger (module_init E (initial_world ∅)).2
  = configured_logger (realpath E "logs/converter.log") logging.INFO ∧
  run_command E
    {| argparse.command := Some "tts"; argparse.text := Some "hello";
       argparse.audio := None; argparse.lang := None |} w1
  = (os_makedirs E "output" ;;
     convert_text_to_speech E "hello" "output/speech_output.mp3") w1 ∧
  run_command E
    {| argparse.command := Some "stt"; argparse.text := None;
       argparse.audio := Some "a.wav"; argparse.lang := Some "en" |} w1
  = (os_makedirs E "output" ;;
     convert_speech_to_text E "a.wav" "output/text_output.txt" "en") w1.
Proof.
  cbv zeta. split; [|split].
  - refine (proj1 (proj2 (proj1 (proj2
      (C4_defaults_when_configuration_absent_or_lacking
         (env_ok configparser.empty) (initial_world ∅)))
      (set_config configparser.empty (initial_world ∅)) _ _ _) _ _)).
    + reflexivity.
    + apply lacks_empty.
    + apply lacks_empty.
    + vm_compute. reflexivity.
  - refine (proj1 (proj2 (proj2
      (C4_defaults_when_configuration_absent_or_lacking
         (env_ok configparser.empty)
         (set_config configparser.empty (initial_world ∅))))) _ "hello" _ _ _).
    + apply lacks_empty.
    + reflexivity.
    + reflexivity.
  - refine (proj2 (proj2 (proj2
      (C4_defaults_when_configuration_absent_or_lacking
         (env_ok configparser.empty)
         (set_config configparser.empty (initial_world ∅))))) _ "a.wav" "en" _ _ _ _).
    + apply lacks_empty.
    + reflexivity.
    + reflexivity.
    + reflexivity.
Defined.


(** ** What the log file receives on success, and the level fallback *)

(** C7 fails on both success paths.  With the default configuration and
    cooperative services, a text-to-speech run and a speech-to-text run
    both end with status 0 and their output file written, yet the log
    file is still empty and the console handler has printed nothing.  The
    text-to-speech path submits its record to the root logger
    ([logging.info], not [logger.info]), whose level WARNING drops it; the
    speech-to-text path submits no record at all.  (The failure paths do
    go through the script's logger: see [logger_error_spec].) *)
Theorem C7_success_paths_leave_log_file_empty :
  let E := env_ok configparser.empty in
  let tts := run E ∅ ["tts"; "--text"; "hello"] in
  let stt := run E {[ "a.wav" := "RIFF" ]} ["stt"; "--audio"; "a.wav"] in
  (tts.1 = 0 ∧
   fs tts.2 !! realpath E "output/speech_output.mp3" = Some "mp3:en:hello" ∧
   stdout tts.2 = [Line "Speech saved to: output/speech_output.mp3"] ∧
   fs tts.2 !! realpath E "logs/converter.log" = Some "" ∧
   stderr tts.2 = [] ∧
   map logging.rec_name (submitted tts.2) = ["root"]) ∧
  (stt.1 = 0 ∧
   fs stt.2 !! realpath E "output/text_output.txt" = Some "transcript of RIFF" ∧
   fs stt.2 !! realpath E "logs/converter.log" = Some "" ∧
   stderr stt.2 = [] ∧
   submitted stt.2 = []).
Proof. cbv zeta. repeat split; vm_compute; reflexivity. Qed.

(** C9 fails for a level name that is not a level but is another
    attribute of the [logging] module.  With [log_level = info],
    [getattr(logging, 'info', logging.INFO)] is the function
    [logging.info], not the fallback; [setLevel] rejects it with a
    [TypeError] while the module is being initialised, and the process
    ends with a traceback (status 1) before [main] runs.  Only a name that
    is no attribute at all, such as [DEBG], falls back to INFO. *)
Theorem C9_level_name_info_crashes_initialisation :
  let E := env_ok (config_with "Logging" "log_level" "info") in
  let r := run E {[ "config.ini" := ini_text "Logging" "log_level" "info" ]}
               ["tts"; "--text"; "hello"] in
  logging.getattr "info" (logging.AInt logging.INFO) = logging.AObj ∧
  (module_init E (initial_world {[ "config.ini" := ini_text "Logging" "log_level" "info" ]})).1
  = Raise (Exn (OtherException "TypeError") "Level not an integer or a valid string") ∧
  r.1 = 1 ∧
  stderr r.2
  = [Traceback (Exn (OtherException "TypeError") "Level not an integer or a valid string")] ∧
  calls r.2 = [] ∧
  logging.checkLevel (logging.getattr "DEBG" (logging.AInt logging.INFO)) = inr logging.INFO.
Proof. cbv zeta. repeat split; vm_compute; reflexivity. Qed.


(** The same in general.  Whenever synthesis and save succeed, the only
    record goes to the root logger, which drops it: nothing is printed on
    the standard error and no file but the destination changes.  Whenever
    the body of [convert_speech_to_text] succeeds, no record is submitted
    anywhere. *)
Lemma success_paths_bypass_the_logger (E : env) (w : world) :
  (∀ text output_path,
     returned (synthesis E text output_path w).1 = true →
     let w' := (convert_text_to_speech E text output_path w).2 in
     map logging.rec_name (submitted w') = map logging.rec_name (submitted w) ++ ["root"] ∧
     stderr w' = stderr w ∧
     fs w' = <[realpath E output_path := (gtts_stream E text "en").1]> (fs w)) ∧
  (∀ audio_path output_path language w1,
     stt_body E audio_path output_path language w = (Return tt, w1) →
     convert_speech_to_text E audio_path output_path language w = (Return tt, w1) ∧
     submitted w1 = submitted w ∧ stderr w1 = stderr w).
Proof.
  split.
  - intros text output_path Hok. cbv zeta.
    pose proof (convert_text_to_speech_success E text output_path w Hok) as (_ & Hfs).
    split; [|split; [|exact Hfs]].
    all: rewrite convert_text_to_speech_run.
    all: pose proof (synthesis_spec E text output_path w) as (_ & Hsub & Herr & _).
    all: destruct (synthesis E text output_path w) as [[[]|e|c] w1];
      cbn [fst snd returned] in *; try discriminate Hok.
    all: unfold logging_info, basicConfig, print, Logger_log; run_m.
    + rewrite map_app. simpl. by destruct (root_configured w1); simpl; rewrite Hsub.
    + by destruct (root_configured w1); simpl; rewrite Herr.
  - intros audio_path output_path language w1 Hbody.
    rewrite convert_speech_to_text_run, Hbody. split; [reflexivity|].
    rewrite stt_body_run in Hbody.
    pose proof (transcript_frame E audio_path language w) as (_ & _ & Hsub & Herr & _).
    destruct (transcript E audio_path language w) as [[text|e|c] w0];
      simpl in *; try discriminate Hbody.
    unfold write_text in Hbody. destruct (open_error E output_path); [discriminate|].
    injection Hbody as <-. simpl. by split.
Qed.

(** * Further properties of the script

    The statements about the values of options keep away from the one
    input on which [parse_args] is not followed, a value that is exactly
    [--] attached to an option ([--text=--]). *)

(** ** What the argument parser lets through *)

(** X1. Whatever the command line, a namespace that [parse_cli_args]
    returns is one [main] can dispatch on: its command is [None], ['tts']
    or ['stt'], and the attributes the chosen branch reads are set
    ([text] for ['tts']; [audio] and [lang] for ['stt']). *)
Theorem X1_parsed_namespace_is_well_formed (argv : list string)
    (args : argparse.Namespace) (w : world) :
  parse_cli_args argv w = (Return args, w) →
  well_formed args.
Proof.
  unfold parse_cli_args. intros H.
  pose proof (top_level_outcome (argparse.classify argparse.top_parser argv) false) as Hout.
  fold (argparse.parse_args argv) in Hout.
  destruct (argparse.parse_args argv) as [ns|c]; [|discriminate H].
  injection H as <-. exact Hout.
Qed.

(** At a concrete input: an abbreviated option with an attached value. *)
Lemma X1_witness :
  well_formed
    {| argparse.command := Some "stt"; argparse.text := None;
       argparse.audio := Some "a.wav"; argparse.lang := Some "de" |}.
Proof.
  apply (X1_parsed_namespace_is_well_formed ["stt"; "--au=a.wav"; "--lang"; "de"] _
           (initial_world ∅)).
  reflexivity.
Defined.

(** X2. When [parse_cli_args] does not return, the process ends with
    status 0 (help was asked for) or 2 (usage error), and nothing has been
    converted, logged or printed on the standard output besides the
    help. *)
Theorem X2_parser_exits_with_status_0_or_2 (argv : list string) (w w' : world) (c : Z) :
  parse_cli_args argv w = (SystemExit c, w') →
  (c = 0 ∧ w' = set_stdout (stdout w ++ [ArgparseHelp]) w) ∨
  (c = 2 ∧ w' = set_stderr (stderr w ++ [ArgparseError]) w).
Proof.
  unfold parse_cli_args. intros H.
  pose proof (top_level_outcome (argparse.classify argparse.top_parser argv) false) as Hout.
  fold (argparse.parse_args argv) in Hout.
  destruct (argparse.parse_args argv) as [ns|c']; [discriminate H|].
  injection H as <- <-. destruct Hout as [-> | ->]; [left | right]; done.
Qed.

(** At a concrete input: the sub-command without its required option. *)
Lemma X2_witness :
  (2 = 0 ∧ set_stderr [ArgparseError] (initial_world ∅)
           = set_stdout (stdout (initial_world ∅) ++ [ArgparseHelp]) (initial_world ∅)) ∨
  (2 = 2 ∧ set_stderr [ArgparseError] (initial_world ∅)
           = set_stderr (stderr (initial_world ∅) ++ [ArgparseError]) (initial_world ∅)).
Proof.
  apply (X2_parser_exits_with_status_0_or_2 ["tts"] (initial_world ∅)).
  reflexivity.
Defined.

(** ** The command lines the script is meant for *)

Lemma classify_positional (p : argparse.parser) (s : string) (rest : list string) :
  String.prefix "-" s = false →
  argparse.classify p (s :: rest) = (s, argparse.A) :: argparse.classify p rest.
Proof.
  intros H. simpl. by rewrite (not_dashdash s H), (parse_optional_positional p s H).
Qed.

Lemma parse_args_tts_word (text : string) :
  String.prefix "-" text = false →
  argparse.parse_args ["tts"; "--text"; text]
  = argparse.Parsed {| argparse.command := Some "tts"; argparse.text := Some text;
                       argparse.audio := None; argparse.lang := None |}.
Proof.
  intros Hdash. unfold argparse.parse_args. simpl.
  rewrite (not_dashdash text Hdash). simpl.
  unfold argparse.subcommand, argparse.parse_known_args. simpl.
  rewrite (not_dashdash text Hdash), (parse_optional_positional _ text Hdash).
  reflexivity.
Qed.

Lemma parse_args_stt_words (path code : string) :
  String.prefix "-" path = false →
  String.prefix "-" code = false →
  argparse.parse_args ["stt"; "--audio"; path]
  = argparse.Parsed {| argparse.command := Some "stt"; argparse.text := None;
                       argparse.audio := Some path; argparse.lang := Some "en" |} ∧
  argparse.parse_args ["stt"; "--audio"; path; "--lang"; code]
  = argparse.Parsed {| argparse.command := Some "stt"; argparse.text := None;
                       argparse.audio := Some path; argparse.lang := Some code |} ∧
  argparse.parse_args ["stt"; "--lang"; code; "--audio"; path]
  = argparse.parse_args ["stt"; "--audio"; path; "--lang"; code].
Proof.
  intros Hpath Hcode.
  unfold argparse.parse_args. simpl.
  unfold argparse.subcommand, argparse.parse_known_args. simpl.
  rewrite !(not_dashdash path Hpath), !(not_dashdash code Hcode). simpl.
  rewrite !(not_dashdash path Hpath), !(not_dashdash code Hcode).
  rewrite !(parse_optional_positional _ path Hpath), !(parse_optional_positional _ code Hcode).
  simpl. done.
Qed.

(** X3. [tts --text TEXT] is accepted for every TEXT that does not begin
    with a dash (the empty text included), and [tts --text=TEXT] for every
    TEXT other than [--] (which the library strips from an attached
    value); both yield the command ['tts'] with exactly that text.  Given
    twice, the option keeps its last value. *)
Theorem X3_tts_command_line (text : string) :
  (String.prefix "-" text = false →
   argparse.parse_args ["tts"; "--text"; text]
   = argparse.Parsed {| argparse.command := Some "tts"; argparse.text := Some text;
                        argparse.audio := None; argparse.lang := None |}) ∧
  (text ≠ "--" →
   argparse.parse_args ["tts"; "--text=" +:+ text]
   = argparse.Parsed {| argparse.command := Some "tts"; argparse.text := Some text;
                        argparse.audio := None; argparse.lang := None |} ∧
   ∀ earlier,
     argparse.parse_args ["tts"; "--text=" +:+ earlier; "--text=" +:+ text]
     = argparse.Parsed {| argparse.command := Some "tts"; argparse.text := Some text;
                          argparse.audio := None; argparse.lang := None |}).
Proof.
  split.
  - apply parse_args_tts_word.
  - intros _. split; [reflexivity|]. intros earlier. reflexivity.
Qed.

(** At a concrete input. *)
Lemma X3_witness :
  argparse.parse_args ["tts"; "--text"; "good morning"]
  = argparse.Parsed {| argparse.command := Some "tts"; argparse.text := Some "good morning";
                       argparse.audio := None; argparse.lang := None |} ∧
  argparse.parse_args ["tts"; "--text=-5 degrees"]
  = argparse.Parsed {| argparse.command := Some "tts"; argparse.text := Some "-5 degrees";
                       argparse.audio := None; argparse.lang := None |}.
Proof.
  split.
  - apply (proj1 (X3_tts_command_line "good morning")). reflexivity.
  - apply (proj2 (X3_tts_command_line "-5 degrees")). discriminate.
Defined.

(** X4. [stt --audio PATH] yields the command ['stt'] with that path and
    the language ['en']; with [--lang CODE] the language is CODE, and the
    two options may come in either order.  (PATH and CODE are any words
    that do not begin with a dash.) *)
Theorem X4_stt_command_line (path code : string) :
  String.prefix "-" path = false →
  String.prefix "-" code = false →
  argparse.parse_args ["stt"; "--audio"; path]
  = argparse.Parsed {| argparse.command := Some "stt"; argparse.text := None;
                       argparse.audio := Some path; argparse.lang := Some "en" |} ∧
  argparse.parse_args ["stt"; "--audio"; path; "--lang"; code]
  = argparse.Parsed {| argparse.command := Some "stt"; argparse.text := None;
                       argparse.audio := Some path; argparse.lang := Some code |} ∧
  argparse.parse_args ["stt"; "--lang"; code; "--audio"; path]
  = argparse.parse_args ["stt"; "--audio"; path; "--lang"; code].
Proof. apply parse_args_stt_words. Qed.

(** At a concrete input. *)
Lemma X4_witness :
  argparse.parse_args ["stt"; "--lang"; "fr"; "--audio"; "memo.wav"]
  = argparse.parse_args ["stt"; "--audio"; "memo.wav"; "--lang"; "fr"].
Proof.
  apply (X4_stt_command_line "memo.wav" "fr"); reflexivity.
Defined.



(** ** What decides the exit status *)

Lemma convert_speech_to_text_returns (E : env) (audio_path output_path language : string)
    (w : world) :
  (convert_speech_to_text E audio_path output_path language w).1 = Return tt.
Proof.
  rewrite convert_speech_to_text_run.
  pose proof (stt_body_never_exits E audio_path output_path language w) as Hexit.
  destruct (stt_body E audio_path output_path language w) as [[[]|e|c] w1]; simpl in *.
  - reflexivity.
  - by destruct (logger_error_spec E (stt_log_message e) w1) as (w' & -> & _).
  - by destruct (Hexit c).
Qed.

Lemma convert_text_to_speech_returns (E : env) (text output_path : string) (w : world) :
  (convert_text_to_speech E text output_path w).1 = Return tt.
Proof.
  rewrite convert_text_to_speech_run.
  pose proof (synthesis_spec E text output_path w) as (_ & _ & _ & Hexit & _).
  destruct (synthesis E text output_path w) as [[[]|e|c] w1]; cbn [fst snd] in *.
  - by destruct (tts_report_spec E ("Speech saved to: " +:+ output_path) w1) as (w' & -> & _).
  - by destruct (logger_error_spec E (tts_log_message e) w1) as (w' & -> & _).
  - by destruct (Hexit c).
Qed.

Lemma os_makedirs_outcome (E : env) (name : string) (w : world) :
  os_makedirs E name w = (Return tt, w) ∨ ∃ e, os_makedirs E name w = (Raise e, w).
Proof.
  unfold os_makedirs. destruct (String.eqb name ""); [right; eauto|].
  destruct (makedirs_error E name); [right; eauto | by left].
Qed.

Lemma output_file_of_outcome (E : env) (cmd : string) (w : world) :
  (∃ output_file, output_file_of E cmd w = (Return output_file, w)) ∨
  (∃ e, output_file_of E cmd w = (Raise e, w)).
Proof. unfold output_file_of. destruct (String.eqb cmd "tts"); apply config_get_outcome. Qed.

(** What [main] does with a namespace whose command is set. *)
Lemma run_command_with_command (E : env) (args : argparse.Namespace) (cmd : string)
    (w : world) :
  well_formed args → argparse.command args = Some cmd →
  (cmd = "tts" ∧
   ∃ text, argparse.text args = Some text ∧
     run_command E args w =
       (output_file ← output_file_of E cmd;
        os_makedirs E (posixpath.dirname output_file) ;;
        convert_text_to_speech E text output_file) w) ∨
  (cmd = "stt" ∧
   ∃ audio lang, argparse.audio args = Some audio ∧ argparse.lang args = Some lang ∧
     run_command E args w =
       (output_file ← output_file_of E cmd;
        os_makedirs E (posixpath.dirname output_file) ;;
        convert_speech_to_text E audio output_file lang) w).
Proof.
  intros [(Hc & _)|[(Hc & [text Ht] & _)|(Hc & _ & [audio Ha] & [lang Hl])]] Hcmd;
    rewrite Hc in Hcmd; try discriminate; injection Hcmd as <-.
  - left. split; [done|]. exists text. split; [done|].
    unfold run_command. rewrite Hc, Ht. reflexivity.
  - right. split; [done|]. exists audio, lang. split; [done|]. split; [done|].
    unfold run_command. rewrite Hc, Ha, Hl. reflexivity.
Qed.

(** X6. The exit status of [main] is decided by the command line, by
    the [output_file] setting and by [os.makedirs] alone: it is the
    parser's status (0 or 2) when the parser ends the process, 0 when no
    sub-command was given, and otherwise 1 if [config.get] raises on the
    configured output file (a value with a bad interpolation) or if the
    directory of the output file cannot be created, and 0 if not.  The
    synthesis and recognition services, the audio file and the output
    file have no say in it: a conversion that fails still ends with
    status 0. *)
Theorem X6_exit_status_ignores_the_conversion (E : env) (argv : list string) (w : world) :
  exit_status (main E argv w).1 =
  match argparse.parse_args argv with
  | argparse.Exit code => code
  | argparse.Parsed args =>
      match argparse.command args with
      | None => 0
      | Some cmd =>
          exit_status
            ((output_file ← output_file_of E cmd;
              os_makedirs E (posixpath.dirname output_file)) w).1
      end
  end.
Proof.
  pose proof (top_level_outcome (argparse.classify argparse.top_parser argv) false) as Hwf.
  fold (argparse.parse_args argv) in Hwf.
  unfold main, parse_cli_args.
  destruct (argparse.parse_args argv) as [args|code]; [|reflexivity].
  rewrite bind_ret.
  destruct (argparse.command args) as [cmd|] eqn:Hcmd.
  - assert (∀ (convert : string → M unit),
              (∀ output_file w', (convert output_file w').1 = Return tt) →
              exit_status
                ((output_file ← output_file_of E cmd;
                  os_makedirs E (posixpath.dirname output_file) ;;
                  convert output_file) w).1
              = exit_status
                  ((output_file ← output_file_of E cmd;
                    os_makedirs E (posixpath.dirname output_file)) w).1) as Hskip.
    { intros convert Hret. rewrite !bind_run.
      destruct (output_file_of_outcome E cmd w) as [[output_file ->]|[e ->]]; [|reflexivity].
      cbv beta iota. rewrite bind_run.
      destruct (os_makedirs_outcome E (posixpath.dirname output_file) w)
        as [-> | [e ->]]; [|reflexivity].
      cbv beta iota. by rewrite Hret. }
    destruct (run_command_with_command E args cmd w Hwf Hcmd)
      as [(_ & text & _ & ->)|(_ & audio & lang & _ & _ & ->)].
    + apply (Hskip (λ output_file, convert_text_to_speech E text output_file)).
      intros. apply convert_text_to_speech_returns.
    + apply (Hskip (λ output_file, convert_speech_to_text E audio output_file lang)).
      intros. apply convert_speech_to_text_returns.
  - unfold run_command. rewrite Hcmd. reflexivity.
Qed.

(** An output file with a stray percent sign: [config.get] raises while
    [main] looks for the output file, and the run ends with status 1 and
    a traceback, no directory made and no conversion called. *)
Example bad_interpolation_stops_main :
  let E := env_ok (config_with "STT" "output_file" "100%/y.txt") in
  let r := run E {[ "config.ini" := ini_text "STT" "output_file" "100%/y.txt" ]}
               ["stt"; "--audio"; "missing.wav"] in
  r.1 = 1 ∧ calls r.2 = [] ∧ submitted r.2 = [] ∧
  stderr r.2
  = [Traceback (Exn (OtherException "InterpolationSyntaxError")
                  "'%' must be followed by '%' or '(', found: '%/y.txt'")].
Proof. cbv zeta. repeat split; vm_compute; reflexivity. Qed.

(** X7. Any failure of [os.makedirs] on the directory of the output
    file, not only the one on the empty name, escapes [main]: the
    exception is raised to the interpreter with the state untouched, so
    nothing is logged, nothing is converted, and the process ends with a
    traceback.  (The output file is the value [config.get] returns.) *)
Theorem X7_makedirs_failure_is_not_caught (E : env) (argv : list string)
    (args : argparse.Namespace) (cmd output_file : string) (e : exn) (w : world) :
  argparse.parse_args argv = argparse.Parsed args →
  argparse.command args = Some cmd →
  output_file_of E cmd w = (Return output_file, w) →
  makedirs_error E (posixpath.dirname output_file) = Some e →
  posixpath.dirname output_file ≠ "" →
  main E argv w = (Raise e, w) ∧ exit_status (main E argv w).1 = 1.
Proof.
  intros Hparse Hcmd Hget Herr Hne.
  pose proof (top_level_outcome (argparse.classify argparse.top_parser argv) false) as Hwf.
  fold (argparse.parse_args argv) in Hwf. rewrite Hparse in Hwf.
  assert (os_makedirs E (posixpath.dirname output_file) w = (Raise e, w)) as Hmk.
  { unfold os_makedirs. rewrite (proj2 (String.eqb_neq _ _) Hne), Herr. reflexivity. }
  assert (main E argv w = (Raise e, w)) as ->; [|done].
  unfold main, parse_cli_args. rewrite Hparse, bind_ret.
  destruct (run_command_with_command E args cmd w Hwf Hcmd)
    as [(_ & text & _ & ->)|(_ & audio & lang & _ & _ & ->)];
    bind_with Hget; by rewrite bind_run, Hmk.
Qed.

(** At a concrete input: the directory [output] cannot be created. *)
Lemma X7_witness :
  main (env_no_mkdir configparser.empty) ["stt"; "--audio"; "a.wav"] (initial_world ∅)
  = (Raise (Exn PermissionError "[Errno 13] Permission denied: 'output'"),
     initial_world ∅).
Proof.
  refine (proj1 (X7_makedirs_failure_is_not_caught (env_no_mkdir configparser.empty)
                   ["stt"; "--audio"; "a.wav"] _ "stt" "output/text_output.txt" _
                   (initial_world ∅) _ _ _ _ _)).
  - reflexivity.
  - reflexivity.
  - reflexivity.
  - reflexivity.
  - discriminate.
Defined.

(** ** Files are never removed, and the log file is always opened *)

Global Instance fs_grows_refl : Reflexive fs_grows.
Proof. intros w p Hp. exact Hp. Qed.

Global Instance fs_grows_trans : Transitive fs_grows.
Proof. intros w1 w2 w3 H12 H23 p Hp. apply H23, H12, Hp. Qed.

Lemma insert_keeps (m : gmap string string) (q v p : string) :
  is_Some (m !! p) → is_Some (<[q := v]> m !! p).
Proof.
  intros Hp. destruct (decide (q = p)) as [->|Hne].
  - rewrite lookup_insert_eq. eauto.
  - by rewrite lookup_insert_ne.
Qed.

Lemma handle_grows (r : logging.LogRecord) (w : world) (h : logging.Handler) :
  fs_grows w (handle r w h).
Proof.
  unfold handle, emit. destruct (_ <? _); [reflexivity|].
  destruct (logging.h_stream h); intros p Hp; simpl; [by apply insert_keeps | exact Hp].
Qed.

Lemma fold_handle_grows (r : logging.LogRecord) (hs : list logging.Handler) (w : world) :
  fs_grows w (fold_left (handle r) hs w).
Proof.
  revert w. induction hs as [|h hs IH]; intros w; simpl; [reflexivity|].
  transitivity (handle r w h); [apply handle_grows | apply IH].
Qed.

Lemma Logger_log_grows (E : env) (l : logger_ref) (lvl : Z) (msg : string) :
  preserves fs_grows (Logger_log E l lvl msg).
Proof.
  intros w. unfold Logger_log. destruct (_ <? _); simpl; [by intros p Hp|].
  unfold callHandlers.
  destruct (handler_chain _ l).
  - intros p Hp. by apply handle_grows.
  - intros p Hp. by apply (fold_handle_grows _ (_ :: _)).
Qed.

Create HintDb grows discriminated.

#[global] Hint Resolve Logger_log_grows : grows.

Ltac grows_step :=
  first
    [ solve [auto 1 with grows nocore]
    | apply preserves_ret; class_goal
    | apply preserves_raise; class_goal
    | apply preserves_sys_exit; class_goal
    | apply preserves_reads; class_goal
    | apply preserves_config_get; class_goal
    | apply preserves_modify; intros ? ? ?; simpl;
      solve [assumption | by apply insert_keeps]
    | apply preserves_bind; try class_goal; [|intros ?]
    | apply preserves_try_except; try class_goal; [|repeat constructor; intros ?; cbn [snd]]
    | match goal with
      | |- preserves _ (match ?x with _ => _ end) => destruct x
      | |- preserves _ (if ?x then _ else _) => destruct x
      end ].

Ltac grows := repeat grows_step.

Lemma convert_text_to_speech_grows (E : env) (text output_path : string) :
  preserves fs_grows (convert_text_to_speech E text output_path).
Proof.
  unfold convert_text_to_speech, gTTS, gTTS_save, logging_info, basicConfig,
    print, logger_error.
  grows.
  all: intros w p Hp; unfold modify; simpl; by destruct (root_configured w).
Qed.

Lemma convert_speech_to_text_grows (E : env) (audio_path output_path language : string) :
  preserves fs_grows (convert_speech_to_text E audio_path output_path language).
Proof.
  unfold convert_speech_to_text, stt_body, record_audio, recognize_google,
    write_text, logger_error.
  grows.
Qed.

#[global] Hint Resolve convert_text_to_speech_grows convert_speech_to_text_grows : grows.

Lemma main_grows (E : env) (argv : list string) :
  preserves fs_grows (main E argv).
Proof.
  unfold main, parse_cli_args, run_command, os_makedirs, attribute, print.
  grows. intros w p Hp. unfold modify. simpl. by destruct (code =? 0).
Qed.

Lemma module_init_grows (E : env) :
  preserves fs_grows (module_init E).
Proof.
  unfold module_init. apply preserves_bind; try class_goal.
  - intros w p Hp. unfold config_read.
    destruct (fs w !! realpath E "config.ini") as [text|]; [destruct (parse_ini E text)|]; exact Hp.
  - intros []. unfold os_makedirs, logger_setLevel, FileHandler, logger_addHandler.
    grows.
Qed.

(** X8. The script never removes a file: every file that exists when the
    program starts still exists when it ends, however the run goes (its
    content may have been overwritten or appended to). *)
Theorem X8_no_file_is_ever_removed (E : env) (argv : list string) (w : world)
    (file : string) :
  is_Some (fs w !! file) →
  is_Some (fs (script E argv w).2 !! file).
Proof.
  revert file. change (fs_grows w (script E argv w).2).
  unfold script. apply preserves_bind; try class_goal.
  - apply module_init_grows.
  - intros []. apply main_grows.
Qed.

(** At a concrete input: a successful transcription leaves the audio
    file in place. *)
Lemma X8_witness :
  is_Some (fs (script (env_ok configparser.empty) ["stt"; "--audio"; "a.wav"]
                 (initial_world {[ "a.wav" := "RIFF" ]})).2 !! "a.wav").
Proof.
  apply X8_no_file_is_ever_removed. vm_compute. eauto.
Defined.



(** X10. If the log file cannot be opened, the module-level statements
    raise and the process ends with a traceback before [main] is called:
    whatever the command line (a request for help included), nothing is
    parsed, converted or printed.  The conversions' own policy of logging
    and carrying on does not apply to the logger's own file.  (The log
    file and the level are the values [config.get] returns.) *)
Theorem X10_unopenable_log_file_stops_the_program (E : env) (argv : list string)
    (w w1 : world) (log_file log_level : string) (n : Z) (e : exn) :
  config_read E "config.ini" w = (Return tt, w1) →
  config_get E "Logging" "log_file" "logs/converter.log" w1 = (Return log_file, w1) →
  config_get E "Logging" "log_level" "INFO" w1 = (Return log_level, w1) →
  os_makedirs E (posixpath.dirname log_file) w1 = (Return tt, w1) →
  logging.checkLevel (logging.getattr log_level (logging.AInt logging.INFO)) = inr n →
  open_error E log_file = Some e →
  script E argv w
  = (Raise e, set_logger (logging.setLevel (logging.getLogger "TextSpeechLogger") n) w1) ∧
  exit_status (script E argv w).1 = 1 ∧
  no_conversion w (script E argv w).2 ∧
  stdout (script E argv w).2 = stdout w ∧ stderr (script E argv w).2 = stderr w.
Proof.
  intros Hread Hfile Hlvl Hmk Hlevel Hopen.
  assert (script E argv w
          = (Raise e, set_logger (logging.setLevel (logging.getLogger "TextSpeechLogger") n) w1))
    as ->.
  { unfold script, module_init. rewrite bind_run.
    bind_with Hread. bind_with Hfile. bind_with Hlvl. bind_with Hmk.
    rewrite bind_modify. unfold logger_setLevel. rewrite Hlevel.
    rewrite bind_modify. unfold FileHandler. rewrite Hopen. reflexivity. }
  split; [done|]. split; [done|]. simpl.
  unfold config_read in Hread.
  destruct (fs w !! realpath E "config.ini") as [text|]; [destruct (parse_ini E text)|];
    inversion Hread; subst; by repeat split.
Qed.

(** At a concrete input: [--help] where nothing may be written. *)
Lemma X10_witness :
  exit_status (script (env_permission_denied configparser.empty) ["--help"]
                 (initial_world ∅)).1 = 1 ∧
  stdout (script (env_permission_denied configparser.empty) ["--help"]
            (initial_world ∅)).2 = [].
Proof.
  pose proof (X10_unopenable_log_file_stops_the_program
                (env_permission_denied configparser.empty) ["--help"] (initial_world ∅)
                (set_config configparser.empty (initial_world ∅))
                "logs/converter.log" "INFO" logging.INFO
                (Exn PermissionError "[Errno 13] Permission denied: 'logs/converter.log'")
                eq_refl eq_refl eq_refl eq_refl eq_refl eq_refl) as (_ & Hstatus & _ & Hout & _).
  split; [exact Hstatus | exact Hout].
Defined.

(** ** Where a failure shows, and where it does not *)

Lemma stt_body_failure_frame (E : env) (audio_path output_path language : string)
    (w w1 : world) (e : exn) :
  stt_body E audio_path output_path language w = (Raise e, w1) →
  fs w1 = fs w ∧ logger w1 = logger w ∧ root_configured w1 = root_configured w ∧
  stderr w1 = stderr w ∧ stdout w1 = stdout w ∧ submitted w1 = submitted w.
Proof.
  rewrite stt_body_run.
  pose proof (transcript_frame E audio_path language w)
    as (Hfs & (_ & Hroot & Hlogger & Hout & _) & Hsub & Herr & _).
  destruct (transcript E audio_path language w) as [[text|e'|c] w0]; simpl in *;
    try discriminate.
  - unfold write_text. destruct (open_error E output_path); [|discriminate].
    intros [= _ <-]. by repeat split.
  - intros [= _ <-]. by repeat split.
Qed.

Lemma synthesis_failure_frame (E : env) (text output_path : string) (w w1 : world) (e : exn) :
  synthesis E text output_path w = (Raise e, w1) →
  logger w1 = logger w ∧ root_configured w1 = root_configured w ∧
  stderr w1 = stderr w ∧ stdout w1 = stdout w ∧
  ∀ file, file ≠ realpath E output_path → fs w1 !! file = fs w !! file.
Proof.
  unfold synthesis, gTTS, gTTS_save. run_m.
  destruct (gtts_init_error E text "en"); simpl; [intros [= _ <-]; by repeat split|].
  destruct (open_error E output_path); simpl; [intros [= _ <-]; by repeat split|].
  destruct (gtts_stream E text "en").2; simpl; [|discriminate].
  intros [= _ <-]. simpl. repeat split. intros file Hfile. by apply lookup_insert_ne.
Qed.

(** X11. With the logger as the module-level statements set it up and a
    configured level that admits ERROR, a failed conversion shows in two
    places: one line [<time> - ERROR - <message>] is appended to the log
    file and one line [<time> : ERROR : <message>] goes to the standard
    error, the message being that of the failure's category.  This holds
    for a failed speech-to-text conversion and, when the destination does
    not lead to the log file (under any path), for a failed text-to-speech
    conversion.  ([log_file] is the file the handler has open.) *)
Theorem X11_a_failure_is_reported_in_file_and_console (E : env) (w : world)
    (log_file : string) (n : Z) :
  logger w = configured_logger log_file n →
  root_configured w = false →
  (if n =? logging.NOTSET then logging.root_level else n) ≤ logging.ERROR →
  (∀ audio_path output_path language e w1,
     stt_body E audio_path output_path language w = (Raise e, w1) →
     let w' := (convert_speech_to_text E audio_path output_path language w).2 in
     fs w' !! log_file
     = Some (default "" (fs w !! log_file) +:+
             (asctime E +:+ " - " +:+ "ERROR" +:+ " - " +:+ stt_log_message e) +:+ nl) ∧
     stderr w'
     = stderr w ++ [Line (asctime E +:+ " : " +:+ "ERROR" +:+ " : " +:+ stt_log_message e)]) ∧
  (∀ text output_path e w1,
     synthesis E text output_path w = (Raise e, w1) →
     realpath E output_path ≠ log_file →
     let w' := (convert_text_to_speech E text output_path w).2 in
     fs w' !! log_file
     = Some (default "" (fs w !! log_file) +:+
             (asctime E +:+ " - " +:+ "ERROR" +:+ " - " +:+ tts_log_message e) +:+ nl) ∧
     stderr w'
     = stderr w ++ [Line (asctime E +:+ " : " +:+ "ERROR" +:+ " : " +:+ tts_log_message e)]).
Proof.
  intros Hlogger Hroot Hlevel. split.
  - intros audio_path output_path language e w1 Hbody. cbv zeta.
    rewrite convert_speech_to_text_run, Hbody.
    apply stt_body_failure_frame in Hbody as (Hfs & Hl & Hr & Herr & _).
    rewrite <- Hfs, <- Herr.
    apply logger_error_reaches_file_and_console with (n := n); congruence.
  - intros text output_path e w1 Hsyn Hne. cbv zeta.
    rewrite convert_text_to_speech_run, Hsyn.
    apply synthesis_failure_frame in Hsyn as (Hl & Hr & Herr & _ & Hfs).
    rewrite <- (Hfs log_file) by congruence. rewrite <- Herr.
    apply logger_error_reaches_file_and_console with (n := n); congruence.
Qed.

(** At a concrete input: unintelligible speech under the default
    configuration. *)
Lemma X11_witness :
  let E := env_unintelligible configparser.empty in
  let w := (module_init E (initial_world {[ "a.wav" := "RIFF" ]})).2 in
  stderr (convert_speech_to_text E "a.wav" "output/text_output.txt" "en" w).2
  = stderr w ++ [Line (asctime E +:+ " : " +:+ "ERROR" +:+ " : " +:+
                       stt_log_message (Exn UnknownValueError ""))].
Proof.
  cbv zeta.
  refine (proj2 (proj1 (X11_a_failure_is_reported_in_file_and_console
      (env_unintelligible configparser.empty)
      (module_init (env_unintelligible configparser.empty)
         (initial_world {[ "a.wav" := "RIFF" ]})).2
      (realpath (env_unintelligible configparser.empty) "logs/converter.log")
      logging.INFO _ _ _)
      "a.wav" "output/text_output.txt" "en" (Exn UnknownValueError "") _ _)).
  - vm_compute. reflexivity.
  - vm_compute. reflexivity.
  - vm_compute. discriminate.
  - vm_compute. reflexivity.
Defined.

Lemma logger_error_dropped (E : env) (msg : string) (w : world) :
  logging.ERROR < logging.level (logger w) →
  logger_error E msg w
  = (Return tt, set_submitted (submitted w ++ [error_record E (logger w) msg]) w).
Proof.
  intros Hlevel. unfold logger_error, Logger_log, getEffectiveLevel.
  assert ((logging.level (logger w) =? logging.NOTSET) = false) as ->.
  { apply Z.eqb_neq. unfold logging.ERROR, logging.NOTSET in *. lia. }
  rewrite (proj2 (Z.ltb_lt _ _) Hlevel). reflexivity.
Qed.

(** X12. When the configured level is above ERROR (for instance
    [log_level = CRITICAL]), a failed conversion leaves no trace at all:
    nothing is added to any file, nothing is printed on the standard
    error or the standard output, and the function still returns
    normally. *)
Theorem X12_level_above_error_silences_failures (E : env) (w : world) :
  logging.ERROR < logging.level (logger w) →
  (∀ audio_path output_path language e w1,
     stt_body E audio_path output_path language w = (Raise e, w1) →
     let r := convert_speech_to_text E audio_path output_path language w in
     r.1 = Return tt ∧ fs r.2 = fs w ∧ stderr r.2 = stderr w ∧ stdout r.2 = stdout w) ∧
  (∀ text output_path e w1,
     synthesis E text output_path w = (Raise e, w1) →
     let r := convert_text_to_speech E text output_path w in
     r.1 = Return tt ∧ stderr r.2 = stderr w ∧ stdout r.2 = stdout w ∧
     ∀ file, file ≠ realpath E output_path → fs r.2 !! file = fs w !! file).
Proof.
  intros Hlevel. split.
  - intros audio_path output_path language e w1 Hbody. cbv zeta.
    rewrite convert_speech_to_text_run, Hbody.
    apply stt_body_failure_frame in Hbody as (Hfs & Hl & _ & Herr & Hout & _).
    rewrite logger_error_dropped by (rewrite Hl; exact Hlevel). by repeat split.
  - intros text output_path e w1 Hsyn. cbv zeta.
    rewrite convert_text_to_speech_run, Hsyn.
    apply synthesis_failure_frame in Hsyn as (Hl & _ & Herr & Hout & Hfs).
    rewrite logger_error_dropped by (rewrite Hl; exact Hlevel). by repeat split.
Qed.

(** At a concrete input: [log_level = CRITICAL] and unintelligible
    speech. *)
Lemma X12_witness :
  let E := env_unintelligible (config_with "Logging" "log_level" "CRITICAL") in
  let files : gmap string string :=
    {[ "config.ini" := ini_text "Logging" "log_level" "CRITICAL"; "a.wav" := "RIFF" ]} in
  let w := (module_init E (initial_world files)).2 in
  let r := convert_speech_to_text E "a.wav" "output/text_output.txt" "en" w in
  r.1 = Return tt ∧ fs r.2 = fs w ∧ stderr r.2 = stderr w ∧ stdout r.2 = stdout w.
Proof.
  cbv zeta.
  refine (proj1 (X12_level_above_error_silences_failures
      (env_unintelligible (config_with "Logging" "log_level" "CRITICAL"))
      (module_init (env_unintelligible (config_with "Logging" "log_level" "CRITICAL"))
         (initial_world
            {[ "config.ini" := ini_text "Logging" "log_level" "CRITICAL";
               "a.wav" := "RIFF" ]})).2 _)
      "a.wav" "output/text_output.txt" "en" (Exn UnknownValueError "") _ _).
  - vm_compute. reflexivity.
  - vm_compute. reflexivity.
Defined.

(** ** Speech to text when it works, and when only the writing fails *)

(** X13. When the audio file is there and can be read, the service
    returns a transcript and the destination can be opened,
    [convert_speech_to_text] asks the service once, in the language it
    was given, and the destination then holds exactly the transcript, any
    earlier content being replaced.  Nothing else changes: no other file,
    nothing printed, nothing logged. *)
Theorem X13_transcript_is_written_to_the_destination (E : env) (w : world)
    (audio_path output_path language content audio text : string) :
  fs w !! realpath E audio_path = Some content →
  audio_decode E audio_path content = inr audio →
  google_recognize E audio language = inr text →
  open_error E output_path = None →
  convert_speech_to_text E audio_path output_path language w
  = (Return tt,
     set_fs (<[realpath E output_path := text]> (fs w))
       (set_calls (calls w ++ [CallAudioFile audio_path; CallRecognizeGoogle audio language])
          w)).
Proof.
  intros Hfile Hdecode Hrec Hopen.
  unfold convert_speech_to_text, stt_body, record_audio, recognize_google, write_text.
  rewrite try_except_run. run_m.
  rewrite Hfile, Hdecode. simpl. rewrite Hrec. simpl. rewrite Hopen. simpl.
  rewrite <- app_assoc. reflexivity.
Qed.

(** At a concrete input: an older transcript is replaced. *)
Lemma X13_witness :
  fs (convert_speech_to_text (env_ok configparser.empty) "a.wav" "out.txt" "fr"
        (initial_world {[ "a.wav" := "RIFF"; "out.txt" := "older transcript" ]})).2
    !! realpath (env_ok configparser.empty) "out.txt"
  = Some "transcript of RIFF".
Proof.
  assert (fs (initial_world {[ "a.wav" := "RIFF"; "out.txt" := "older transcript" ]})
            !! realpath (env_ok configparser.empty) "a.wav" = Some "RIFF") as Hfile
    by (vm_compute; reflexivity).
  rewrite (X13_transcript_is_written_to_the_destination (env_ok configparser.empty)
             (initial_world {[ "a.wav" := "RIFF"; "out.txt" := "older transcript" ]})
             "a.wav" "out.txt" "fr" "RIFF" "RIFF" "transcript of RIFF"
             Hfile eq_refl eq_refl eq_refl).
  apply lookup_insert_eq.
Defined.

(** X14. The words of the command line reach the conversions unchanged:
    [tts --text TEXT] runs [convert_text_to_speech] on TEXT, and
    [stt --audio PATH] runs [convert_speech_to_text] on PATH in the
    language ['en'], or in CODE when [--lang CODE] is given; in each case
    after reading the output file from the configuration and creating its
    directory, the output file being the destination.  When [config.get]
    raises on the configured output file, [main] raises with it: no
    directory is made and no conversion is called.  (TEXT, PATH and CODE
    are words that do not begin with a dash.) *)
Theorem X14_command_line_reaches_the_conversion (E : env) (w : world)
    (text path code : string) :
  String.prefix "-" text = false →
  String.prefix "-" path = false →
  String.prefix "-" code = false →
  main E ["tts"; "--text"; text] w
  = (output_file ← config_get E "TTS" "output_file" "output/speech_output.mp3";
     os_makedirs E (posixpath.dirname output_file) ;;
     convert_text_to_speech E text output_file) w ∧
  main E ["stt"; "--audio"; path] w
  = (output_file ← config_get E "STT" "output_file" "output/text_output.txt";
     os_makedirs E (posixpath.dirname output_file) ;;
     convert_speech_to_text E path output_file "en") w ∧
  main E ["stt"; "--audio"; path; "--lang"; code] w
  = (output_file ← config_get E "STT" "output_file" "output/text_output.txt";
     os_makedirs E (posixpath.dirname output_file) ;;
     convert_speech_to_text E path output_file code) w ∧
  (∀ e, config_get E "TTS" "output_file" "output/speech_output.mp3" w = (Raise e, w) →
        main E ["tts"; "--text"; text] w = (Raise e, w)) ∧
  (∀ e, config_get E "STT" "output_file" "output/text_output.txt" w = (Raise e, w) →
        main E ["stt"; "--audio"; path] w = (Raise e, w) ∧
        main E ["stt"; "--audio"; path; "--lang"; code] w = (Raise e, w)).
Proof.
  intros Htext Hpath Hcode.
  pose proof (parse_args_tts_word text Htext) as Htts.
  pose proof (parse_args_stt_words path code Hpath Hcode) as (Hstt & Hlang & _).
  unfold main, parse_cli_args. rewrite Htts, Hstt, Hlang.
  split; [done|]. split; [done|]. split; [done|]. split.
  - intros e Hget. rewrite bind_ret. unfold run_command.
    rewrite bool_decide_eq_true_2 by done. by rewrite bind_run, Hget.
  - intros e Hget. rewrite !bind_ret. unfold run_command. cbn [argparse.command].
    rewrite (bool_decide_eq_false_2 (Some "stt" = Some "tts")) by done.
    rewrite bool_decide_eq_true_2 by done. by rewrite !bind_run, Hget.
Qed.

(** At a concrete input. *)
Lemma X14_witness :
  let E := env_ok configparser.empty in
  main E ["stt"; "--audio"; "memo.wav"; "--lang"; "de"] (initial_world ∅)
  = (os_makedirs E "output" ;;
     convert_speech_to_text E "memo.wav" "output/text_output.txt" "de") (initial_world ∅).
Proof.
  cbv zeta.
  exact (proj1 (proj2 (proj2 (X14_command_line_reaches_the_conversion
                         (env_ok configparser.empty)
                         (initial_world ∅) "hello" "memo.wav" "de"
                         eq_refl eq_refl eq_refl)))).
Defined.

(** X15. A [FileNotFoundError] raised while the transcript is being
    written (the directory of the destination is missing, say) is caught
    by the clause meant for the audio file: although the audio was found
    and recognised, the failure is logged as ["Audio file not found: ..."],
    with the destination's error text, and no transcript is written. *)
Theorem X15_unwritable_destination_is_reported_as_missing_audio (E : env) (w : world)
    (audio_path output_path language content audio text : string) (e : exn) :
  fs w !! realpath E audio_path = Some content →
  audio_decode E audio_path content = inr audio →
  google_recognize E audio language = inr text →
  open_error E output_path = Some e →
  exn_type e = FileNotFoundError →
  convert_speech_to_text E audio_path output_path language w
  = logger_error E ("Audio file not found: " +:+ exn_str e)
      (set_calls (calls w ++ [CallAudioFile audio_path; CallRecognizeGoogle audio language])
         w).
Proof.
  intros Hfile Hdecode Hrec Hopen Hclass.
  rewrite convert_speech_to_text_run.
  assert (stt_body E audio_path output_path language w
          = (Raise e,
             set_calls (calls w ++ [CallAudioFile audio_path; CallRecognizeGoogle audio language])
               w)) as ->.
  { unfold stt_body, record_audio, recognize_google, write_text. run_m.
    rewrite Hfile, Hdecode. simpl. rewrite Hrec. simpl. rewrite Hopen. simpl.
    rewrite <- app_assoc. reflexivity. }
  unfold stt_log_message. rewrite Hclass. reflexivity.
Qed.

(** At a concrete input. *)
Lemma X15_witness :
  let E := env_output_dir_missing configparser.empty in
  let w := initial_world {[ "a.wav" := "RIFF" ]} in
  convert_speech_to_text E "a.wav" "gone/out.txt" "en" w
  = logger_error E
      "Audio file not found: [Errno 2] No such file or directory: 'gone/out.txt'"
      (set_calls [CallAudioFile "a.wav"; CallRecognizeGoogle "RIFF" "en"] w).
Proof.
  cbv zeta.
  assert (fs (initial_world {[ "a.wav" := "RIFF" ]})
            !! realpath (env_output_dir_missing configparser.empty) "a.wav" = Some "RIFF")
    as Hfile by (vm_compute; reflexivity).
  exact (X15_unwritable_destination_is_reported_as_missing_audio
           (env_output_dir_missing configparser.empty) (initial_world {[ "a.wav" := "RIFF" ]})
           "a.wav" "gone/out.txt" "en" "RIFF" "RIFF" "transcript of RIFF"
           (Exn FileNotFoundError "[Errno 2] No such file or directory: 'gone/out.txt'")
           Hfile eq_refl eq_refl eq_refl eq_refl).
Defined.

(** ** Text to speech: what is printed, and what the root logger keeps *)

(** X16. [convert_text_to_speech] prints ["Speech saved to: <path>"] on
    the standard output exactly when the synthesis call and the save went
    through; on any failure it prints nothing there.
    [convert_speech_to_text] never prints on the standard output, not even
    on success. *)
Theorem X16_saved_message_only_after_a_save (E : env) (w : world) :
  (∀ text output_path,
     stdout (convert_text_to_speech E text output_path w).2
     = stdout w ++
       (if returned (synthesis E text output_path w).1
        then [Line ("Speech saved to: " +:+ output_path)] else [])) ∧
  (∀ audio_path output_path language,
     stdout (convert_speech_to_text E audio_path output_path language w).2 = stdout w).
Proof.
  split.
  - intros text output_path. rewrite convert_text_to_speech_run.
    pose proof (synthesis_spec E text output_path w) as ((_ & _ & _ & Hout & _) & _).
    destruct (synthesis E text output_path w) as [[[]|e|c] w1]; cbn [fst snd returned] in *.
    + unfold logging_info, basicConfig, print, Logger_log. run_m.
      by destruct (root_configured w1); simpl; rewrite Hout.
    + destruct (logger_error_spec E (tts_log_message e) w1)
        as (w' & -> & (_ & _ & _ & Hout' & _) & _).
      simpl. by rewrite Hout', Hout, app_nil_r.
    + by rewrite Hout, app_nil_r.
  - intros audio_path output_path language.
    assert (stdout (stt_body E audio_path output_path language w).2 = stdout w) as Hbody.
    { rewrite stt_body_run.
      pose proof (transcript_frame E audio_path language w) as (_ & (_ & _ & _ & Hout & _) & _).
      destruct (transcript E audio_path language w) as [[text|e|c] w1];
        cbn [fst snd] in *; try exact Hout.
      unfold write_text. by destruct (open_error E output_path). }
    rewrite convert_speech_to_text_run.
    destruct (stt_body E audio_path output_path language w) as [[[]|e|c] w1];
      cbn [fst snd] in *; try exact Hbody.
    destruct (logger_error_spec E (stt_log_message e) w1)
      as (w' & -> & (_ & _ & _ & Hout' & _) & _).
    simpl. by rewrite Hout'.
Qed.

(** X17. If the [gTTS] constructor raises, [tts.save] is never reached:
    the only call made to the library is the constructor, and no file
    changes except those the failure is logged to: a path that does not
    lead to a file of a log handler finds its file as it was. *)
Theorem X17_failed_constructor_means_no_save (E : env) (w : world)
    (text output_path : string) (e : exn) :
  gtts_init_error E text "en" = Some e →
  let w' := (convert_text_to_speech E text output_path w).2 in
  calls w' = calls w ++ [CallGTTS text "en"] ∧
  stdout w' = stdout w ∧
  ∀ p, realpath E p ∉ log_files w → fs w' !! realpath E p = fs w !! realpath E p.
Proof.
  intros Herr. cbv zeta.
  rewrite convert_text_to_speech_run.
  assert (synthesis E text output_path w
          = (Raise e, set_calls (calls w ++ [CallGTTS text "en"]) w)) as ->.
  { unfold synthesis, gTTS. run_m. rewrite Herr. reflexivity. }
  destruct (logger_error_spec E (tts_log_message e)
              (set_calls (calls w ++ [CallGTTS text "en"]) w))
    as (w' & -> & (_ & _ & _ & Hout & Hcalls) & _ & Hfs).
  simpl. split; [exact Hcalls|]. split; [exact Hout|].
  intros p Hp. by rewrite Hfs.
Qed.

(** At a concrete input: a constructor that refuses the empty text. *)
Lemma X17_witness :
  let E := {| asctime := "2024-05-01 12:00:00,000";
              realpath := posixpath.normpath;
              str_lower := ascii_lower;
              repr := ascii_repr;
              parse_ini := λ _, inr configparser.empty;
              makedirs_error := λ _, None;
              open_error := λ _, None;
              gtts_init_error := λ text _,
                if String.eqb text ""
                then Some (Exn (OtherException "AssertionError") "No text to speak")
                else None;
              gtts_stream := λ text lang, ("mp3:" +:+ lang +:+ ":" +:+ text, None);
              audio_decode := λ _ content, inr content;
              google_recognize := λ audio _, inr ("transcript of " +:+ audio) |} in
  calls (convert_text_to_speech E "" "output/speech_output.mp3" (initial_world ∅)).2
  = [] ++ [CallGTTS "" "en"].
Proof.
  cbv zeta.
  refine (proj1 (X17_failed_constructor_means_no_save _ (initial_world ∅) ""
                   "output/speech_output.mp3"
                   (Exn (OtherException "AssertionError") "No text to speak") _)).
  reflexivity.
Defined.

Lemma convert_text_to_speech_configures_root (E : env) (text output_path : string)
    (w : world) :
  returned (synthesis E text output_path w).1 = true →
  let w' := (convert_text_to_speech E text output_path w).2 in
  root_configured w' = true ∧ logger w' = logger w ∧ stderr w' = stderr w.
Proof.
  intros Hok. cbv zeta. rewrite convert_text_to_speech_run.
  pose proof (synthesis_spec E text output_path w) as ((_ & _ & Hl & _) & _ & Herr & _).
  destruct (synthesis E text output_path w) as [[[]|e|c] w1]; cbn [fst snd returned] in *;
    try discriminate Hok.
  simpl in Hl. unfold logging_info, basicConfig, print, Logger_log. run_m.
  rewrite <- Hl, <- Herr. by destruct (root_configured w1) eqn:Hroot.
Qed.

Lemma logger_error_after_basicConfig (E : env) (msg path : string) (n : Z) (w : world) :
  logger w = configured_logger path n →
  root_configured w = true →
  (if n =? logging.NOTSET then logging.root_level else n) ≤ logging.ERROR →
  stderr (logger_error E msg w).2
  = stderr w ++ [ Line (asctime E +:+ " : " +:+ "ERROR" +:+ " : " +:+ msg);
                  Line ("ERROR" +:+ ":" +:+ "TextSpeechLogger" +:+ ":" +:+ msg) ].
Proof.
  intros Hlogger Hroot Hlevel.
  assert ((logging.ERROR <? getEffectiveLevel w TextSpeechLogger) = false) as Hcmp.
  { unfold getEffectiveLevel. rewrite Hlogger. simpl. apply Z.ltb_ge. exact Hlevel. }
  unfold logger_error, Logger_log. rewrite Hcmp.
  unfold callHandlers, handler_chain, root_handlers. simpl. rewrite Hlogger, Hroot. simpl.
  rewrite <- app_assoc. reflexivity.
Qed.

(** X18. [convert_text_to_speech] reports its success through the
    module-level [logging.info], which installs a console handler on the
    root logger (the message itself is dropped, the root logger's level
    being WARNING, so the standard error is unchanged).  From then on
    every failure logged through the script's logger is printed twice on
    the standard error: once as [<time> : ERROR : <message>] by the
    script's console handler, once as [ERROR:TextSpeechLogger:<message>]
    by the root logger's. *)
Theorem X18_after_a_saved_speech_failures_print_twice (E : env) (w : world)
    (log_file : string) (n : Z) (text speech_path : string) :
  logger w = configured_logger log_file n →
  (if n =? logging.NOTSET then logging.root_level else n) ≤ logging.ERROR →
  returned (synthesis E text speech_path w).1 = true →
  let w1 := (convert_text_to_speech E text speech_path w).2 in
  stderr w1 = stderr w ∧
  ∀ audio_path output_path language e w2,
    stt_body E audio_path output_path language w1 = (Raise e, w2) →
    stderr (convert_speech_to_text E audio_path output_path language w1).2
    = stderr w ++
      [ Line (asctime E +:+ " : " +:+ "ERROR" +:+ " : " +:+ stt_log_message e);
        Line ("ERROR" +:+ ":" +:+ "TextSpeechLogger" +:+ ":" +:+ stt_log_message e) ].
Proof.
  intros Hlogger Hlevel Hok. cbv zeta.
  destruct (convert_text_to_speech_configures_root E text speech_path w Hok)
    as (Hroot & Hl & Herr).
  split; [exact Herr|].
  intros audio_path output_path language e w2 Hbody.
  rewrite convert_speech_to_text_run, Hbody.
  apply stt_body_failure_frame in Hbody as (Hfs & Hl2 & Hr2 & Herr2 & _).
  rewrite <- Herr, <- Herr2.
  apply logger_error_after_basicConfig with (path := log_file) (n := n); congruence.
Qed.

(** At a concrete input: a speech is saved, then a recording that is not
    there is asked for. *)
Lemma X18_witness :
  let E := env_ok configparser.empty in
  let w := (module_init E (initial_world ∅)).2 in
  let w1 := (convert_text_to_speech E "hello" "output/speech_output.mp3" w).2 in
  stderr (convert_speech_to_text E "a.wav" "output/text_output.txt" "en" w1).2
  = stderr w ++
    [ Line (asctime E +:+ " : " +:+ "ERROR" +:+ " : " +:+
            stt_log_message (Exn FileNotFoundError
                               "[Errno 2] No such file or directory: 'a.wav'"));
      Line ("ERROR" +:+ ":" +:+ "TextSpeechLogger" +:+ ":" +:+
            stt_log_message (Exn FileNotFoundError
                               "[Errno 2] No such file or directory: 'a.wav'")) ].
Proof.
  cbv zeta.
  refine (proj2 (X18_after_a_saved_speech_failures_print_twice
      (env_ok configparser.empty)
      (module_init (env_ok configparser.empty) (initial_world ∅)).2
      "logs/converter.log" logging.INFO "hello" "output/speech_output.mp3" _ _ _)
      "a.wav" "output/text_output.txt" "en"
      (Exn FileNotFoundError "[Errno 2] No such file or directory: 'a.wav'") _ _).
  - vm_compute. reflexivity.
  - vm_compute. discriminate.
  - vm_compute. reflexivity.
  - vm_compute. reflexivity.
Defined.
